(** * Data-quality scoring and improvement engine

    A shallow embedding of [utils/quality_checks.py] (the Quality Evaluator)
    and [utils/data_quality_improver.py] (the Quality Improver), and the
    properties of the two modules.

    Conventions of the embedding.

    - Binary floating point is not modelled: a float is an exact rational,
      extended with the three special values numpy produces ([nan], [inf],
      [-inf]).  Divisions are numpy's (a zero divisor gives [nan] or an
      infinity, it does not raise).  The overall score is also given over an
      arithmetic that is left open ([Arithmetic], [Doubles]), for what does
      not depend on how doubles round.
    - A DataFrame is a list of column labels and a list of rows; a row maps
      labels to scalars.  Column labels are taken to be distinct.
    - Functions of pandas and of the Python runtime whose result is not
      determined by the two modules (printing of floats, parsing of
      numbers, case conversion, regular expressions, [DataFrame.eval], the
      wall clock) are the fields of the class [Runtime]. *)

From Stdlib Require Import QArith Qround ZArith String Ascii List Lia Lqa.
From stdpp Require Import base option list gmap strings pretty.

Set Default Proof Using "Type".

#[local] Open Scope string_scope.
#[local] Open Scope list_scope.

(** ** Floats *)

Module Float.

Inductive npfloat : Type :=
| Fin (q : Q)
| PInf
| NInf
| NaN.

Definition of_Z (z : Z) : npfloat := Fin (inject_Z z).
Definition of_nat (n : nat) : npfloat := of_Z (Z.of_nat n).

Definition inf_of_sign (c : comparison) : npfloat :=
  match c with Gt => PInf | Lt => NInf | Eq => NaN end.

Definition neg (a : npfloat) : npfloat :=
  match a with
  | Fin q => Fin (- q)
  | PInf => NInf
  | NInf => PInf
  | NaN => NaN
  end.

Definition add (a b : npfloat) : npfloat :=
  match a, b with
  | NaN, _ | _, NaN => NaN
  | Fin x, Fin y => Fin (x + y)
  | PInf, NInf | NInf, PInf => NaN
  | PInf, _ | _, PInf => PInf
  | NInf, _ | _, NInf => NInf
  end.

Definition sub (a b : npfloat) : npfloat := add a (neg b).

Definition mul (a b : npfloat) : npfloat :=
  match a, b with
  | NaN, _ | _, NaN => NaN
  | Fin x, Fin y => Fin (x * y)
  | Fin x, PInf | PInf, Fin x => inf_of_sign (x ?= 0)%Q
  | Fin x, NInf | NInf, Fin x => inf_of_sign (0 ?= x)%Q
  | PInf, PInf | NInf, NInf => PInf
  | PInf, NInf | NInf, PInf => NInf
  end.

(** numpy's true division: [x / 0] is an infinity of the sign of [x], and
    [0 / 0] is [nan]. *)
Definition div (a b : npfloat) : npfloat :=
  match a, b with
  | NaN, _ | _, NaN => NaN
  | Fin x, Fin y =>
      if Qeq_bool y 0 then inf_of_sign (x ?= 0)%Q else Fin (x / y)
  | Fin _, (PInf | NInf) => Fin 0
  | PInf, Fin y => if Qle_bool 0 y then PInf else NInf
  | NInf, Fin y => if Qle_bool 0 y then NInf else PInf
  | (PInf | NInf), (PInf | NInf) => NaN
  end.

(** Rounding to the nearest integer, ties to the even one. *)
Definition round_half_even (q : Q) : Z :=
  let f := Qfloor q in
  match (q - inject_Z f ?= 1 # 2)%Q with
  | Lt => f
  | Gt => (f + 1)%Z
  | Eq => if Z.even f then f else (f + 1)%Z
  end.

(** [round(x, 2)] and [x.round(2)]. *)
Definition round2 (a : npfloat) : npfloat :=
  match a with
  | Fin q => Fin (inject_Z (round_half_even (q * 100)) / 100)
  | _ => a
  end.

(** [a >= c] for a finite constant [c]; every comparison with [nan] is
    false. *)
Definition geb (a : npfloat) (c : Q) : bool :=
  match a with
  | Fin q => Qle_bool c q
  | PInf => true
  | NInf | NaN => false
  end.

Definition isnan (a : npfloat) : bool :=
  match a with NaN => true | _ => false end.

(** Numerical equality: equal rationals, or the same special value. *)
Definition feq (a b : npfloat) : Prop :=
  match a, b with
  | Fin x, Fin y => (x == y)%Q
  | PInf, PInf | NInf, NInf | NaN, NaN => True
  | _, _ => False
  end.

(** A number of the closed interval [0, 100]. *)
Definition in_0_100 (a : npfloat) : Prop :=
  match a with
  | Fin q => (0 <= q)%Q /\ (q <= 100)%Q
  | _ => False
  end.

Definition sum (l : list npfloat) : npfloat := foldl add (Fin 0) l.

(** [np.mean] of a non-empty list. *)
Definition mean (l : list npfloat) : npfloat := div (sum l) (of_nat (length l)).

End Float.

Export Float.

(** ** Scalars, rows and DataFrames *)

(** A cell of a DataFrame: [None], a Python [bool], [int], [float]
    ([float('nan')] is [VFloat NaN]) or [str]. *)
Inductive value : Type :=
| VNone
| VBool (b : bool)
| VInt (z : Z)
| VFloat (x : npfloat)
| VStr (s : string).

(** [pd.isnull] of a scalar. *)
Definition isnull (v : value) : bool :=
match v with
| VNone | VFloat NaN => true
| _ => false
end.

Definition notnull (v : value) : bool := negb (isnull v).

(** What pandas' hash tables ([duplicated], [unique], [isin]) and Python's
    [==] identify: numbers by their numerical value, whatever their type
    ([1 == 1.0 == True]), strings by their characters.  In the table of a
    column of objects a [nan] is the [nan] met before, and [None] is
    another key. *)
Inductive key : Type :=
| KNone
| KNaN
| KNum (num : Z) (den : positive)
| KPInf
| KNInf
| KStr (s : string).

#[global] Instance key_eq_dec : EqDecision key.
Proof. solve_decision. Defined.

Definition key_of_Q (q : Q) : key :=
let r := Qred q in KNum (Qnum r) (Qden r).

Definition value_key (v : value) : key :=
match v with
| VNone => KNone
| VFloat NaN => KNaN
| VBool b => key_of_Q (if b then 1 else 0)
| VInt z => key_of_Q (inject_Z z)
| VFloat (Fin q) => key_of_Q q
| VFloat PInf => KPInf
| VFloat NInf => KNInf
| VStr s => KStr s
end.

Abbreviation row := (gmap string value).

Record DataFrame : Type := mkDataFrame {
  df_columns : list string;
  df_rows : list row;
}.

(** The cell of a row in a column; a row that stores nothing for the column
    holds [nan] there. *)
Definition cell (r : row) (c : string) : value := default (VFloat NaN) (r !! c).

(** [len(df)] *)
Definition len (df : DataFrame) : nat := length (df_rows df).

(** [column in df.columns] *)
Definition has_column (df : DataFrame) (c : string) : bool :=
bool_decide (c ∈ df_columns df).

(** [df[column]], as the list of its values in row order. *)
Definition series (df : DataFrame) (c : string) : list value :=
map (fun r => cell r c) (df_rows df).

(** [df.empty]: no row or no column. *)
Definition df_empty (df : DataFrame) : bool :=
match df_rows df, df_columns df with
| [], _ | _, [] => true
| _, _ => false
end.

(** [Series.dropna()] *)
Definition dropna (s : list value) : list value := List.filter notnull s.

(** [Series.isnull().sum()] *)
Definition count_null (s : list value) : nat := length (List.filter isnull s).

(** [Series.unique()]: the distinct values, each at its first occurrence. *)
Fixpoint unique_from (seen : list key) (s : list value) : list value :=
match s with
| [] => []
| v :: s' =>
    if bool_decide (value_key v ∈ seen) then unique_from seen s'
    else v :: unique_from (value_key v :: seen) s'
end.

Definition unique (s : list value) : list value := unique_from [] s.

(** The dtype pandas gives a column is recovered from the values it holds;
    a column of no rows is given [object]. *)
Inductive dtype : Type := Int64 | Float64 | BoolDtype | ObjectDtype.

Definition is_int (v : value) : bool := match v with VInt _ => true | _ => false end.
Definition is_bool (v : value) : bool := match v with VBool _ => true | _ => false end.
Definition is_number (v : value) : bool :=
match v with VInt _ | VFloat _ => true | _ => false end.

Definition infer_dtype (s : list value) : dtype :=
match s with
| [] => ObjectDtype
| _ =>
    if forallb is_int s then Int64
    else if forallb is_number s then Float64
    else if forallb is_bool s then BoolDtype
    else ObjectDtype
end.

(** ** Exceptions *)

(** A [KeyError] carries the label that was not found; the sentence pandas
    builds around it is not modelled. *)
Inductive exn : Type :=
| KeyError (msg : string)
| TypeError (msg : string)
| ValueError (msg : string)
| OtherError (msg : string).

(** [str(e)] *)
Definition exn_str (e : exn) : string :=
match e with
| KeyError msg => "'" +:+ msg +:+ "'"
| TypeError msg | ValueError msg | OtherError msg => msg
end.

Inductive result (A : Type) : Type :=
| Ok (a : A)
| Raise (e : exn).
Arguments Ok {A} a.
Arguments Raise {A} e.

(** ** Duplicated rows *)

Inductive keep_policy : Type := KeepFirst | KeepLast | KeepNone.

(** [factorize] gives every missing value of a column the code [-1]. *)
Definition factorize_key (v : value) : key :=
if isnull v then KNaN else value_key v.

(** What [DataFrame.duplicated] compares of a row.  With one key column it is
    [Series.duplicated] of that column, whose table tells [None] from [nan];
    with several, the codes [factorize] gives the values of each, where the
    missing values of a column are one class. *)
Definition row_key (subset : list string) (r : row) : list key :=
match subset with
| [c] => [value_key (cell r c)]
| _ => map (fun c => factorize_key (cell r c)) subset
end.

(** [keep='first']: a row is marked when an earlier row has its key. *)
Fixpoint mark_seen (seen : list (list key)) (ks : list (list key)) : list bool :=
match ks with
| [] => []
| k :: ks' => bool_decide (k ∈ seen) :: mark_seen (k :: seen) ks'
end.

Definition mark_duplicates (keep : keep_policy) (ks : list (list key)) : list bool :=
match keep with
| KeepFirst => mark_seen [] ks
| KeepLast => rev (mark_seen [] (rev ks))
| KeepNone => zip_with orb (mark_seen [] ks) (rev (mark_seen [] (rev ks)))
end.

(** [df.duplicated(subset=subset, keep=keep)].  An empty frame has no
    duplicated row; a label of [subset] that is not a column is a
    [KeyError]; an empty [subset] cannot be factorized. *)
Definition duplicated (df : DataFrame) (subset : option (list string))
  (keep : keep_policy) : result (list bool) :=
if df_empty df then Ok []
else
  let subset := default (df_columns df) subset in
  match List.filter (fun c => negb (has_column df c)) subset with
  | c :: _ => Raise (KeyError c)
  | [] =>
      match subset with
      | [] => Raise (ValueError "not enough values to unpack (expected 2, got 0)")
      | _ => Ok (mark_duplicates keep (map (row_key subset) (df_rows df)))
      end
  end.

(** [df[~mask]]: the rows whose mark is [False]. *)
Fixpoint drop_marked {A : Type} (mask : list bool) (l : list A) : list A :=
match mask, l with
| m :: mask', x :: l' => if m then drop_marked mask' l' else x :: drop_marked mask' l'
| _, _ => []
end.

(** [df.drop_duplicates(subset=subset, keep=keep)] *)
Definition drop_duplicates (df : DataFrame) (subset : option (list string))
  (keep : keep_policy) : result DataFrame :=
if df_empty df then Ok df
else
  match duplicated df subset keep with
  | Ok mask => Ok (mkDataFrame (df_columns df) (drop_marked mask (df_rows df)))
  | Raise e => Raise e
  end.

(** ** The runtime the two modules call into *)

(** A number as [pd.to_numeric] produces it: an integer or a float. *)
Inductive number : Type :=
| NInt (z : Z)
| NFloat (x : npfloat).

Definition float_of (n : number) : npfloat :=
match n with
| NInt z => of_Z z
| NFloat x => x
end.

Definition number_value (n : number) : value :=
match n with
| NInt z => VInt z
| NFloat x => VFloat x
end.

Class Runtime : Type := {
  (** [str(x)] of a finite float *)
  float_repr : Q -> string;
  (** [pd.to_numeric(s, errors='coerce')] of one string: [nan] when the
      string is not a number *)
  parse_number : string -> number;
  (** [str.title], [str.upper], [str.lower], [str.strip] *)
  str_title : string -> string;
  str_upper : string -> string;
  str_lower : string -> string;
  str_strip : string -> string;
  (** [re.sub(pattern, replacement, _)]; [None] when the pattern or the
      replacement template does not compile *)
  regex_sub : string -> string -> option (string -> string);
  (** [df.eval(condition)]: the boolean mask of the rows, or the exception
      the evaluator raises *)
  df_eval : DataFrame -> option string -> result (list bool);
  (** [str] of a Python set, list or dict *)
  repr_set : list value -> string;
  repr_list : list string -> string;
  repr_dict : list (string * string) -> string;
  (** the wall clock: the value of its [n]-th reading *)
  clock : nat -> string;
}.

(** [pd.to_numeric(_, errors='coerce')] on one value. *)
Definition to_numeric `{Runtime} (v : value) : number :=
match v with
| VNone => NFloat NaN
| VBool b => NInt (if b then 1 else 0)
| VInt z => NInt z
| VFloat x => NFloat x
| VStr s => parse_number s
end.

(** [pd.to_numeric(_, errors='coerce').notna()] on one value. *)
Definition numeric_convertible_value `{Runtime} (v : value) : bool :=
negb (isnan (float_of (to_numeric v))).

(** [str(v)] *)
Definition py_str `{Runtime} (v : value) : string :=
match v with
| VNone => "None"
| VBool b => if b then "True" else "False"
| VInt z => pretty z
| VFloat (Fin q) => float_repr q
| VFloat PInf => "inf"
| VFloat NInf => "-inf"
| VFloat NaN => "nan"
| VStr s => s
end.

(** ** The Quality Evaluator ([quality_checks.py]) *)

(** A check returns either [{'error': msg}] or its report. *)
Inductive check_result (A : Type) : Type :=
| CheckError (msg : string)
| Report (r : A).
Arguments CheckError {A} msg.
Arguments Report {A} r.

Record completeness_entry : Type := mkCompleteness {
  missing_count : Z;
  missing_percentage : npfloat;
  complete_count : Z;
  c_completeness_score : npfloat;
}.

Record duplicates_report : Type := mkDuplicates {
  total_rows : nat;
  duplicate_count : Z;
  duplicate_percentage : npfloat;
  unique_rows : Z;
  d_uniqueness_score : npfloat;
}.

Record format_report : Type := mkFormat {
  total_non_null : nat;
  data_types : gmap string nat;
  numeric_convertible : Z;
  format_consistency_score : npfloat;
}.

Record codification_report : Type := mkCodification {
  total_values : nat;
  unique_values : nat;
  valid_codes_count : Z;
  invalid_codes_count : Z;
  invalid_values : list value;
  k_codification_score : npfloat;
}.

Record quality_score : Type := mkQualityScore {
  completeness_score : npfloat;
  uniqueness_score : npfloat;
  format_score : npfloat;
  codification_score : npfloat;
  overall_quality_score : npfloat;
  quality_level : string;
}.

Record dataset_info : Type := mkDatasetInfo {
  info_total_rows : nat;
  total_columns : nat;
  columns : list string;
}.

Record quality_report : Type := mkQualityReport {
  source_name : string;
  timestamp : string;
  r_dataset_info : dataset_info;
  completeness : list (string * completeness_entry);
  duplicates : duplicates_report;
  format_consistency : list (string * check_result format_report);
  codification_consistency : list (string * check_result codification_report);
  r_quality_score : quality_score;
}.

(** [(count / total * 100).round(2)] *)
Definition percentage (count : Z) (total : nat) : npfloat :=
round2 (mul (div (of_Z count) (of_nat total)) (Fin 100)).

Definition completeness_of (df : DataFrame) (col : string) : completeness_entry :=
let total_rows := len df in
let missing_counts := Z.of_nat (count_null (series df col)) in
let missing_percentages := percentage missing_counts total_rows in
{| missing_count := missing_counts;
   missing_percentage := missing_percentages;
   complete_count := Z.of_nat total_rows - missing_counts;
   c_completeness_score := sub (Fin 100) missing_percentages |}.

(** [check_completeness(df, columns=None)]; [df[columns]] raises a
    [KeyError] on a label that is not a column.  A label requested twice
    selects the column twice: [missing_counts[col]] is then a Series of two
    counts, and [int()] of it is a [TypeError]. *)
Definition check_completeness (df : DataFrame) (columns : option (list string))
  : result (list (string * completeness_entry)) :=
let requested := default (df_columns df) columns in
match List.filter (fun c => negb (has_column df c)) requested with
| c :: _ => Raise (KeyError c)
| [] =>
    match columns with
    | Some l =>
        if bool_decide (NoDup l) then
          Ok (map (fun col => (col, completeness_of df col)) l)
        else Raise (TypeError "cannot convert the series to <class 'int'>")
    | None => Ok (map (fun col => (col, completeness_of df col)) (df_columns df))
    end
end.

Definition count_true (mask : list bool) : Z :=
Z.of_nat (length (List.filter id mask)).

(** [check_duplicates(df, subset=None)] *)
Definition check_duplicates (df : DataFrame) (subset : option (list string))
  : result duplicates_report :=
let total_rows := len df in
match duplicated df subset KeepNone with
| Raise e => Raise e
| Ok duplicate_rows =>
    match duplicated df subset KeepFirst with
    | Raise e => Raise e
    | Ok unique_duplicates =>
        let dups := count_true unique_duplicates in
        Ok {| total_rows := total_rows;
              duplicate_count := dups;
              duplicate_percentage := percentage dups total_rows;
              unique_rows := Z.of_nat total_rows - dups;
              d_uniqueness_score :=
                percentage (Z.of_nat total_rows - dups) total_rows |}
    end
end.

(** [str(type(v))] *)
Definition type_name (v : value) : string :=
match v with
| VNone => "<class 'NoneType'>"
| VBool _ => "<class 'bool'>"
| VInt _ => "<class 'int'>"
| VFloat _ => "<class 'float'>"
| VStr _ => "<class 'str'>"
end.

(** [series.apply(type).value_counts()], as the map from type to count. *)
Definition type_histogram (s : list value) : gmap string nat :=
foldr (fun v h => <[type_name v := S (default 0%nat (h !! type_name v))]> h) ∅ s.

(** [pd.to_numeric(series, errors='coerce').notna().sum()] *)
Definition count_numeric `{Runtime} (s : list value) : Z :=
Z.of_nat (length (List.filter numeric_convertible_value s)).

(** [check_format_consistency(df, column, expected_patterns=None)] *)
Definition check_format_consistency `{Runtime} (df : DataFrame) (column : string)
  : check_result format_report :=
if negb (has_column df column) then
  CheckError ("Column " +:+ column +:+ " not found")
else
  let series := dropna (series df column) in
  if Nat.eqb (length series) 0 then CheckError "No data to check"
  else
    let numeric_consistency := count_numeric series in
    Report {| total_non_null := length series;
              data_types := type_histogram series;
              numeric_convertible := numeric_consistency;
              format_consistency_score :=
                percentage numeric_consistency (length series) |}.

(** [v in valid_codes] *)
Definition is_valid_code (valid_codes : list value) (v : value) : bool :=
bool_decide (value_key v ∈ map value_key valid_codes).

(** [check_codification_consistency(df, column, valid_codes=None)].  An
    empty [valid_codes] is falsy and takes the branch of [None]. *)
Definition check_codification_consistency `{Runtime} (df : DataFrame)
  (column : string) (valid_codes : option (list value))
  : check_result codification_report :=
if negb (has_column df column) then
  CheckError ("Column " +:+ column +:+ " not found")
else
  let series := dropna (series df column) in
  if Nat.eqb (length series) 0 then CheckError "No data to check"
  else
    let unique_values := unique series in
    let '(valid_count, invalid_values) :=
      match valid_codes with
      | Some ((_ :: _) as valid_codes) =>
          (Z.of_nat (length (List.filter (is_valid_code valid_codes) series)),
           List.filter (fun v => negb (is_valid_code valid_codes v)) unique_values)
      | _ =>
          (count_numeric series,
           unique (List.filter (fun v => negb (numeric_convertible_value v)) series))
      end in
    Report {| total_values := length series;
              unique_values := length unique_values;
              valid_codes_count := valid_count;
              invalid_codes_count := Z.of_nat (length series) - valid_count;
              invalid_values := invalid_values;
              k_codification_score := percentage valid_count (length series) |}.

(** [get_quality_level(score)] *)
Definition get_quality_level (score : npfloat) : string :=
if geb score 90 then "Excellent"
else if geb score 80 then "Good"
else if geb score 70 then "Fair"
else if geb score 60 then "Poor"
else "Very Poor".

(** [np.mean(scores) if scores else 0] *)
Definition mean_or_zero (scores : list npfloat) : npfloat :=
match scores with
| [] => Fin 0
| _ => mean scores
end.

(** [report.get(score_key, 0)] on the result of a check: an error result has
    no score. *)
Definition score_or_zero {A : Type} (score : A -> npfloat) (r : check_result A) : npfloat :=
match r with
| Report r => score r
| CheckError _ => Fin 0
end.

(** [calculate_data_quality_score(completeness_report, duplicates_report,
    format_reports, codification_reports)].  A duplicates report always has
    its [uniqueness_score], so the default of [.get] is not reached. *)
Definition calculate_data_quality_score
  (completeness_report : list (string * completeness_entry))
  (duplicates_report : duplicates_report)
  (format_reports : list (string * check_result format_report))
  (codification_reports : list (string * check_result codification_report))
  : quality_score :=
let completeness_scores := map (fun r => c_completeness_score r.2) completeness_report in
let avg_completeness := mean_or_zero completeness_scores in
let uniqueness_score := d_uniqueness_score duplicates_report in
let format_scores := map (fun r => score_or_zero format_consistency_score r.2) format_reports in
let avg_format_score := mean_or_zero format_scores in
let codification_scores :=
  map (fun r => score_or_zero k_codification_score r.2) codification_reports in
let avg_codification_score := mean_or_zero codification_scores in
let overall_score :=
  add (add (add (mul avg_completeness (Fin (3 # 10)))
                (mul uniqueness_score (Fin (25 # 100))))
           (mul avg_format_score (Fin (25 # 100))))
      (mul avg_codification_score (Fin (20 # 100))) in
{| completeness_score := round2 avg_completeness;
   uniqueness_score := round2 uniqueness_score;
   format_score := round2 avg_format_score;
   codification_score := round2 avg_codification_score;
   overall_quality_score := round2 overall_score;
   quality_level := get_quality_level overall_score |}.

(** *** The score in the arithmetic of doubles

    Above, a score is the rational it would be if no operation rounded.  The
    scores of the program are doubles: every product, sum and mean is
    rounded, and so is what [round] returns.  Here the arithmetic is left
    open: [literal] is the number a literal of the source denotes, [plus],
    [times], [np_mean] and [round_2] are [+], [*], [np.mean] and
    [round(x, 2)] as they are computed, and [number_of] is the number a
    double is.  Two numbers are compared as what they are, a [nan] being
    above nothing. *)
Class Arithmetic (F : Type) : Type := {
  literal : Q -> F;
  plus : F -> F -> F;
  times : F -> F -> F;
  np_mean : list F -> F;
  round_2 : F -> F;
  number_of : F -> npfloat;
}.

(** The arithmetic that rounds nothing but in [round]. *)
#[local] Instance exact_arithmetic : Arithmetic npfloat :=
{| literal := Fin;
   plus := add;
   times := mul;
   np_mean := mean;
   round_2 := round2;
   number_of := id |}.

Module Doubles.

Record quality_score (F : Type) : Type := mkQualityScore {
  completeness_score : F;
  uniqueness_score : F;
  format_score : F;
  codification_score : F;
  overall_quality_score : F;
  quality_level : string;
}.
Arguments mkQualityScore {F}.
Arguments completeness_score {F}.
Arguments uniqueness_score {F}.
Arguments format_score {F}.
Arguments codification_score {F}.
Arguments overall_quality_score {F}.
Arguments quality_level {F}.

(** [get_quality_level(score)] *)
Definition get_quality_level `{Arithmetic F} (score : F) : string :=
if geb (number_of score) 90 then "Excellent"
else if geb (number_of score) 80 then "Good"
else if geb (number_of score) 70 then "Fair"
else if geb (number_of score) 60 then "Poor"
else "Very Poor".

(** [np.mean(scores) if scores else 0] *)
Definition mean_or_zero `{Arithmetic F} (scores : list F) : F :=
match scores with
| [] => literal 0
| _ => np_mean scores
end.

(** [calculate_data_quality_score(completeness_report, duplicates_report,
    format_reports, codification_reports)].  Of a report only its score is
    read: [report['completeness_score']] of each entry of the first
    argument, and [.get(score_key, 0)] of the others, here [None] for a
    report that has no score. *)
Definition calculate_data_quality_score `{Arithmetic F}
  (completeness_report : list (string * F))
  (duplicates_report : option F)
  (format_reports : list (string * option F))
  (codification_reports : list (string * option F))
  : quality_score F :=
let completeness_scores := map (fun r => r.2) completeness_report in
let avg_completeness := mean_or_zero completeness_scores in
let uniqueness_score := default (literal 0) duplicates_report in
let format_scores := map (fun r => default (literal 0) r.2) format_reports in
let avg_format_score := mean_or_zero format_scores in
let codification_scores := map (fun r => default (literal 0) r.2) codification_reports in
let avg_codification_score := mean_or_zero codification_scores in
let overall_score :=
  plus (plus (plus (times avg_completeness (literal (3 # 10)))
                   (times uniqueness_score (literal (25 # 100))))
             (times avg_format_score (literal (25 # 100))))
       (times avg_codification_score (literal (20 # 100))) in
{| completeness_score := round_2 avg_completeness;
   uniqueness_score := round_2 uniqueness_score;
   format_score := round_2 avg_format_score;
   codification_score := round_2 avg_codification_score;
   overall_quality_score := round_2 overall_score;
   quality_level := get_quality_level overall_score |}.

End Doubles.

(** The scores that [calculate_data_quality_score] reads in the reports of
    the checks. *)
Definition scores_read
  (completeness_report : list (string * completeness_entry))
  (duplicates_report : duplicates_report)
  (format_reports : list (string * check_result format_report))
  (codification_reports : list (string * check_result codification_report))
  : list (string * npfloat) * option npfloat
    * list (string * option npfloat) * list (string * option npfloat) :=
(map (fun r => (r.1, c_completeness_score r.2)) completeness_report,
 Some (d_uniqueness_score duplicates_report),
 map (fun r => (r.1, match r.2 with
                     | Report r => Some (format_consistency_score r)
                     | CheckError _ => None
                     end)) format_reports,
 map (fun r => (r.1, match r.2 with
                     | Report r => Some (k_codification_score r)
                     | CheckError _ => None
                     end)) codification_reports).

(** The columns [generate_quality_report] checks for format: the numeric
    ones and three named ones. *)
Definition format_checked (df : DataFrame) (col : string) : bool :=
match infer_dtype (series df col) with
| Int64 | Float64 => true
| _ => bool_decide (col ∈ ["CSP"; "ID_CSP"; "NB_KW_Jour"])
end.

(** [generate_quality_report(df, source_name, output_path=None)]; [now] is
    what [datetime.now().isoformat()] returns during the call.  Writing the
    report to [output_path] is left out. *)
Definition generate_quality_report `{Runtime} (df : DataFrame)
  (source_name now : string) : result quality_report :=
match check_completeness df None with
| Raise e => Raise e
| Ok completeness =>
    match check_duplicates df None with
    | Raise e => Raise e
    | Ok duplicates =>
        let format_reports :=
          map (fun col => (col, check_format_consistency df col))
              (List.filter (format_checked df) (df_columns df)) in
        let codification_reports :=
          if has_column df "CSP" then
            [("CSP", check_codification_consistency df "CSP"
                       (Some [VStr "1"; VStr "2"; VStr "3"; VStr "4"]))]
          else [] in
        Ok {| source_name := source_name;
              timestamp := now;
              r_dataset_info :=
                {| info_total_rows := len df;
                   total_columns := length (df_columns df);
                   columns := df_columns df |};
              completeness := completeness;
              duplicates := duplicates;
              format_consistency := format_reports;
              codification_consistency := codification_reports;
              r_quality_score :=
                calculate_data_quality_score completeness duplicates
                  format_reports codification_reports |}
    end
end.

(** ** The Quality Improver ([data_quality_improver.py])

    The improver works on DataFrame objects: [frames] is the store of the
    objects that exist, a reference is an index into it.  [df.copy()] and
    [df.drop_duplicates()] make a new object; the assignments
    [df[column] = ...], [df.loc[mask, column] = ...] and
    [fillna(..., inplace=True)] change an existing one. *)

Record log_entry : Type := mkLog {
  log_action : string;
  log_details : string;
  log_timestamp : string;
}.

Abbreviation ref := nat.

Record state : Type := mkState {
  frames : list DataFrame;
  improvement_log : list log_entry;
  clock_reads : nat;
}.

(** Computations that read and write the state and may raise; the state
    reached when an exception is raised is kept. *)
Definition M (A : Type) : Type := state -> result A * state.

Definition ret {A : Type} (a : A) : M A := fun st => (Ok a, st).

Definition bind {A B : Type} (m : M A) (f : A -> M B) : M B :=
fun st =>
  match m st with
  | (Ok a, st') => f a st'
  | (Raise e, st') => (Raise e, st')
  end.

Declare Scope improver_scope.
Delimit Scope improver_scope with improver.
Notation "x <- m ;; k" := (bind m (fun x => k))
  (at level 100, m at next level, right associativity) : improver_scope.
Notation "m ;; k" := (bind m (fun _ => k))
  (at level 100, right associativity) : improver_scope.
#[local] Open Scope improver_scope.

Definition lift {A : Type} (r : result A) : M A := fun st => (r, st).

(** [try: body except Exception as e: handler(e)] *)
Definition try_except {A : Type} (body : M A) (handler : exn -> M A) : M A :=
fun st =>
  match body st with
  | (Raise e, st') => handler e st'
  | r => r
  end.

(** [for x in l: body(x)] *)
Fixpoint for_each {A : Type} (l : list A) (body : A -> M unit) : M unit :=
match l with
| [] => ret tt
| x :: l' => body x ;; for_each l' body
end.

Definition read_frame (df : ref) : M DataFrame :=
fun st =>
  match frames st !! df with
  | Some d => (Ok d, st)
  | None => (Raise (OtherError "no such object"), st)
  end.

Definition new_frame (d : DataFrame) : M ref :=
fun st =>
  (Ok (length (frames st)),
   mkState (frames st ++ [d]) (improvement_log st) (clock_reads st)).

Definition write_frame (df : ref) (d : DataFrame) : M unit :=
fun st =>
  (Ok tt, mkState (<[df := d]> (frames st)) (improvement_log st) (clock_reads st)).

(** [df.copy()] *)
Definition frame_copy (df : ref) : M ref :=
d <- read_frame df ;; new_frame d.

(** [self.log_improvement(action, details)] *)
Definition log_improvement `{Runtime} (action details : string) : M unit :=
fun st =>
  (Ok tt,
   mkState (frames st)
     (improvement_log st ++
        [{| log_action := action;
            log_details := details;
            log_timestamp := clock (clock_reads st) |}])
     (S (clock_reads st))).

(** *** Operations of pandas on one column *)

(** [df[column] = values] *)
Definition set_column (d : DataFrame) (c : string) (values : list value) : DataFrame :=
mkDataFrame
  (if has_column d c then df_columns d else df_columns d ++ [c])
  (zip_with (fun r v => <[c := v]> r) (df_rows d) values).

(** [Series.fillna(fill_value)] *)
Definition fillna (fill_value : value) (s : list value) : list value :=
map (fun v => if isnull v then fill_value else v) s.

(** [Series.fillna(method='ffill')]: a missing value takes the last value
    that is not missing; leading missing values stay. *)
Fixpoint ffill_from (last : option value) (s : list value) : list value :=
match s with
| [] => []
| v :: s' =>
    if isnull v then default v last :: ffill_from last s'
    else v :: ffill_from (Some v) s'
end.

Definition ffill (s : list value) : list value := ffill_from None s.

Definition is_str (v : value) : bool := match v with VStr _ => true | _ => false end.

(** The number a value stands for in arithmetic. *)
Definition as_number (v : value) : option number :=
match v with
| VBool b => Some (NInt (if b then 1 else 0))
| VInt z => Some (NInt z)
| VFloat x => Some (NFloat x)
| VNone | VStr _ => None
end.

Definition as_float (v : value) : npfloat :=
match as_number v with
| Some n => float_of n
| None => NaN
end.

(** [Series.mean()]: the mean of the values that are not missing, [nan]
    when there is none; a [TypeError] when one of them is a string. *)
Definition series_mean (s : list value) : result npfloat :=
let present := dropna s in
if existsb is_str present then
  Raise (TypeError "Could not convert string to numeric")
else Ok (mean (map as_float present)).

Definition count_key (k : key) (s : list value) : nat :=
length (List.filter (fun v => bool_decide (value_key v = k)) s).

Definition flt (a b : npfloat) : bool :=
match a, b with
| Fin x, Fin y => negb (Qle_bool y x)
| NInf, (Fin _ | PInf) | Fin _, PInf => true
| _, _ => false
end.

Definition value_ltb (a b : value) : bool :=
match a, b with
| VStr x, VStr y => String.ltb x y
| _, _ => flt (as_float a) (as_float b)
end.

Definition minimum (l : list value) : option value :=
match l with
| [] => None
| v :: l' => Some (foldl (fun m x => if value_ltb x m then x else m) v l')
end.

(** [Series.mode()]: the most frequent of the values that are not missing,
    in increasing order.  When they mix strings and numbers pandas sorts the
    numbers before the strings.  Only the first one, [mode().iloc[0]], is
    used. *)
Definition first_mode (s : list value) : option value :=
let present := dropna s in
let counts := map (fun v => count_key (value_key v) present) present in
let top := foldr Nat.max 0%nat counts in
let modes := List.filter (fun v => Nat.eqb (count_key (value_key v) present) top) (unique present) in
match List.filter (fun v => negb (is_str v)) modes with
| [] => minimum modes
| numbers => minimum numbers
end.

(** [str.startswith] and [str.replace] (for a pattern that is not empty) *)
Definition startswith (s prefix : string) : bool := String.prefix prefix s.

Fixpoint replace_from (old new : string) (skip : nat) (s : string) : string :=
match s with
| EmptyString => EmptyString
| String a s' =>
    match skip with
    | S k => replace_from old new k s'
    | O =>
        if String.prefix old s then new +:+ replace_from old new (String.length old - 1) s'
        else String a (replace_from old new 0 s')
    end
end.

Definition str_replace (s old new : string) : string := replace_from old new 0 s.

(** [df.loc[mask, column] = value] *)
Definition loc_set (d : DataFrame) (mask : list bool) (c : string) (v : value) : DataFrame :=
set_column d c (zip_with (fun (m : bool) old => if m then v else old) mask (series d c)).

(** [s * n] on Python strings *)
Definition repeat_string (s : string) (n : Z) : string :=
Nat.iter (Z.to_nat n) (fun acc => s +:+ acc) EmptyString.

(** [v * factor] *)
Definition py_mul (v factor : value) : result value :=
match v, factor with
| VStr s, VInt n | VInt n, VStr s => Ok (VStr (repeat_string s n))
| VStr s, VBool b | VBool b, VStr s => Ok (VStr (repeat_string s (if b then 1 else 0)))
| _, _ =>
    match as_number v, as_number factor with
    | Some (NInt a), Some (NInt b) => Ok (VInt (a * b))
    | Some a, Some b => Ok (VFloat (mul (float_of a) (float_of b)))
    | _, _ => Raise (TypeError "unsupported operand type(s) for *")
    end
end.

(** The values of [df.loc[mask, column] * factor], in place in the column. *)
Fixpoint mul_masked (mask : list bool) (s : list value) (factor : value)
  : result (list value) :=
match mask, s with
| m :: mask', v :: s' =>
    match (if m then py_mul v factor else Ok v) with
    | Raise e => Raise e
    | Ok v' =>
        match mul_masked mask' s' factor with
        | Raise e => Raise e
        | Ok r => Ok (v' :: r)
        end
    end
| _, _ => Ok []
end.

(** [v == s] for a string [s] *)
Definition is_string (v : value) (s : string) : bool :=
match v with
| VStr s' => String.eqb s' s
| _ => false
end.

(** *** [DataQualityImprover.improve_completeness] *)

(** The filling of one column, after the strategy.  The assignment
    [df_improved[column].fillna(..., inplace=True)] is taken to change the
    column of [df_improved], as it does in pandas without copy-on-write. *)
Definition fill_column (d : DataFrame) (column : string) (strategy : value)
  : result DataFrame :=
let s := series d column in
if is_string strategy "mean" then
  match series_mean s with
  | Raise e => Raise e
  | Ok fill_value => Ok (set_column d column (fillna (VFloat fill_value) s))
  end
else if is_string strategy "mode" then
  let fill_value := default (VStr "UNKNOWN") (first_mode s) in
  Ok (set_column d column (fillna fill_value s))
else if is_string strategy "forward_fill" then
  Ok (set_column d column (ffill s))
else
  match strategy with
  | VStr strategy =>
      if startswith strategy "custom_" then
        let fill_value := str_replace strategy "custom_" EmptyString in
        Ok (set_column d column (fillna (VStr fill_value) s))
      else Ok d
  | _ => Ok d
  end.

(** The body of the loop over the strategies. *)
Definition complete_column `{Runtime} (df_improved : ref) (entry : string * value) : M unit :=
let '(column, strategy) := entry in
d <- read_frame df_improved ;;
if negb (has_column d column) then ret tt
else
  let missing_count := count_null (series d column) in
  if Nat.eqb missing_count 0 then ret tt
  else
    d' <- lift (fill_column d column strategy) ;;
    write_frame df_improved d' ;;
    log_improvement "completeness"
      ("Colonne " +:+ column +:+ ": " +:+ pretty missing_count +:+
       " valeurs manquantes comblées avec stratégie '" +:+ py_str strategy +:+ "'").

Definition improve_completeness `{Runtime} (df : ref)
  (strategies : list (string * value)) : M ref :=
df_improved <- frame_copy df ;;
for_each strategies (complete_column df_improved) ;;
ret df_improved.

(** *** [DataQualityImprover.remove_duplicates] *)

Definition keep_str (keep : keep_policy) : string :=
match keep with
| KeepFirst => "first"
| KeepLast => "last"
| KeepNone => "False"
end.

Definition subset_str `{Runtime} (subset : option (list string)) : string :=
match subset with
| None => "None"
| Some l => repr_list l
end.

Definition remove_duplicates `{Runtime} (df : ref) (subset : option (list string))
  (keep : keep_policy) : M ref :=
d <- read_frame df ;;
let original_count := len d in
d' <- lift (drop_duplicates d subset keep) ;;
df_improved <- new_frame d' ;;
let duplicates_removed := (Z.of_nat original_count - Z.of_nat (len d'))%Z in
(if (0 <? duplicates_removed)%Z then
   log_improvement "duplicates"
     (pretty duplicates_removed +:+ " doublons supprimés (subset=" +:+
      subset_str subset +:+ ", keep=" +:+ keep_str keep +:+ ")")
 else ret tt) ;;
ret df_improved.

(** *** [DataQualityImprover.standardize_format] *)

(** A formatting rule: a string, or a dict of strings. *)
Inductive format_rule : Type :=
| RuleStr (s : string)
| RuleDict (d : list (string * string)).

Definition dict_get (d : list (string * string)) (k : string) : option string :=
snd <$> List.find (fun kv => bool_decide (kv.1 = k)) d.

Definition rule_str `{Runtime} (rule : format_rule) : string :=
match rule with
| RuleStr s => s
| RuleDict d => repr_dict d
end.

(** [Series.astype(str)] followed by a method of [.str] *)
Definition astype_str_then `{Runtime} (f : string -> string) (s : list value) : list value :=
map (fun v => VStr (f (py_str v))) s.

(** [pd.to_numeric(series, errors='coerce')]: an integer column when every
    value is an integer, a float column otherwise. *)
Definition to_numeric_series `{Runtime} (s : list value) : list value :=
let numbers := map to_numeric s in
if forallb (fun n => match n with NInt _ => true | NFloat _ => false end) numbers
then map number_value numbers
else map (fun n => VFloat (float_of n)) numbers.

Definition format_column `{Runtime} (d : DataFrame) (column : string)
  (rule : format_rule) : result DataFrame :=
let s := series d column in
match rule with
| RuleStr rule =>
    if String.eqb rule "title_case" then
      Ok (set_column d column (astype_str_then str_title s))
    else if String.eqb rule "upper_case" then
      Ok (set_column d column (astype_str_then str_upper s))
    else if String.eqb rule "lower_case" then
      Ok (set_column d column (astype_str_then str_lower s))
    else if String.eqb rule "numeric" then
      Ok (set_column d column (to_numeric_series s))
    else if String.eqb rule "clean_spaces" then
      Ok (set_column d column (astype_str_then str_strip s))
    else Ok d
| RuleDict rule =>
    match dict_get rule "regex" with
    | Some pattern =>
        let replacement := default EmptyString (dict_get rule "replacement") in
        match regex_sub pattern replacement with
        | Some f => Ok (set_column d column (astype_str_then f s))
        | None => Raise (OtherError "bad regular expression")
        end
    | None => Ok d
    end
end.

(** The body of the loop over the rules. *)
Definition standardize_column `{Runtime} (df_improved : ref) (entry : string * format_rule)
  : M unit :=
let '(column, rule) := entry in
d <- read_frame df_improved ;;
if negb (has_column d column) then ret tt
else
  d' <- lift (format_column d column rule) ;;
  write_frame df_improved d' ;;
  log_improvement "format"
    ("Colonne " +:+ column +:+ ": format standardisé avec règle '" +:+
     rule_str rule +:+ "'").

Definition standardize_format `{Runtime} (df : ref)
  (format_rules : list (string * format_rule)) : M ref :=
df_improved <- frame_copy df ;;
for_each format_rules (standardize_column df_improved) ;;
ret df_improved.

(** *** [DataQualityImprover.normalize_codification] *)

(** [Series.astype(str).replace(mapping)]: every value is made a string,
    and a string that is a key of the mapping is replaced by what it maps
    to; all keys are looked up in the column as it was before the call. *)
Definition replace_codes `{Runtime} (mapping : gmap string string) (s : list value)
  : list value :=
map (fun v => let code := py_str v in VStr (default code (mapping !! code))) s.

(** [set(original_values) - set(mapping.keys())] *)
Definition unmapped_values (mapping : gmap string string) (original_values : list value)
  : list value :=
List.filter
  (fun v => match v with
            | VStr s => bool_decide (mapping !! s = None)
            | _ => true
            end)
  original_values.

(** The body of the loop over the mappings. *)
Definition normalize_column `{Runtime} (df_improved : ref)
  (entry : string * gmap string string) : M unit :=
let '(column, mapping) := entry in
d <- read_frame df_improved ;;
if negb (has_column d column) then ret tt
else
  let original_values := unique (series d column) in
  write_frame df_improved
    (set_column d column (replace_codes mapping (series d column))) ;;
  let unmapped := unmapped_values mapping original_values in
  match unmapped with
  | _ :: _ =>
      log_improvement "codification"
        ("Colonne " +:+ column +:+ ": " +:+ pretty (size mapping) +:+
         " codes mappés, " +:+ pretty (length unmapped) +:+
         " valeurs non mappées: " +:+ repr_set unmapped)
  | [] =>
      log_improvement "codification"
        ("Colonne " +:+ column +:+ ": " +:+ pretty (size mapping) +:+
         " codes normalisés avec succès")
  end.

Definition normalize_codification `{Runtime} (df : ref)
  (codification_rules : list (string * gmap string string)) : M ref :=
df_improved <- frame_copy df ;;
for_each codification_rules (normalize_column df_improved) ;;
ret df_improved.

(** *** [DataQualityImprover.apply_business_rules] *)

(** A rule is a dict with the keys [name], [condition] and [action]; the
    action is a dict of scalars. *)
Record business_rule : Type := mkRule {
  rule_name : option string;
  rule_condition : option string;
  rule_action : option (gmap string value);
}.

(** [action[k]] *)
Definition getitem (action : option (gmap string value)) (k : string) : M value :=
match action with
| None => lift (Raise (TypeError "'NoneType' object is not subscriptable"))
| Some a =>
    match a !! k with
    | Some v => ret v
    | None => lift (Raise (KeyError k))
    end
end.

(** Column labels are strings. *)
Definition column_label `{Runtime} (v : value) : M string :=
match v with
| VStr c => ret c
| _ => lift (Raise (KeyError (py_str v)))
end.

(** The three kinds of action on the rows of [mask]; another kind changes
    nothing. *)
Definition apply_action `{Runtime} (df_improved : ref) (mask : list bool)
  (action : option (gmap string value)) : M unit :=
type <- getitem action "type" ;;
if is_string type "set_value" then
  v <- getitem action "value" ;;
  column <- getitem action "column" ;;
  column <- column_label column ;;
  d <- read_frame df_improved ;;
  write_frame df_improved (loc_set d mask column v)
else if is_string type "multiply" then
  column <- getitem action "column" ;;
  column <- column_label column ;;
  d <- read_frame df_improved ;;
  if negb (has_column d column) then lift (Raise (KeyError column))
  else
    factor <- getitem action "factor" ;;
    values <- lift (mul_masked mask (series d column) factor) ;;
    write_frame df_improved (set_column d column values)
else if is_string type "flag" then
  v <- getitem action "flag_value" ;;
  column <- getitem action "flag_column" ;;
  column <- column_label column ;;
  d <- read_frame df_improved ;;
  write_frame df_improved (loc_set d mask column v)
else ret tt.

(** The body of the loop over the rules. *)
Definition apply_rule `{Runtime} (df_improved : ref) (rule : business_rule) : M unit :=
let rule_name := default "unnamed_rule" (rule_name rule) in
let condition := rule_condition rule in
let action := rule_action rule in
try_except
  (d <- read_frame df_improved ;;
   mask <- lift (df_eval d condition) ;;
   let affected_rows := count_true mask in
   if (0 <? affected_rows)%Z then
     apply_action df_improved mask action ;;
     log_improvement "business_rule"
       ("Règle " +:+ rule_name +:+ ": " +:+ pretty affected_rows +:+ " lignes affectées")
   else ret tt)
  (fun e =>
     log_improvement "business_rule_error"
       ("Erreur dans la règle " +:+ rule_name +:+ ": " +:+ exn_str e)).

Definition apply_business_rules `{Runtime} (df : ref)
  (business_rules : list business_rule) : M ref :=
df_improved <- frame_copy df ;;
for_each business_rules (apply_rule df_improved) ;;
ret df_improved.

(** ** A small runtime, to run the model on examples

    ASCII letters only; numbers are the decimal integers; a pattern is
    literal text; a condition is the label of a column of booleans. *)

Definition ascii_between (lo hi : nat) (a : ascii) : bool :=
(lo <=? nat_of_ascii a)%nat && (nat_of_ascii a <=? hi)%nat.

Definition is_upper : ascii -> bool := ascii_between 65 90.
Definition is_lower : ascii -> bool := ascii_between 97 122.
Definition is_digit : ascii -> bool := ascii_between 48 57.

Definition is_space (a : ascii) : bool :=
ascii_between 9 13 a || Nat.eqb (nat_of_ascii a) 32.

Definition upper_char (a : ascii) : ascii :=
if is_lower a then ascii_of_nat (nat_of_ascii a - 32) else a.

Definition lower_char (a : ascii) : ascii :=
if is_upper a then ascii_of_nat (nat_of_ascii a + 32) else a.

Fixpoint map_string (f : ascii -> ascii) (s : string) : string :=
match s with
| EmptyString => EmptyString
| String a s' => String (f a) (map_string f s')
end.

Fixpoint title_from (in_word : bool) (s : string) : string :=
match s with
| EmptyString => EmptyString
| String a s' =>
    String (if in_word then lower_char a else upper_char a)
           (title_from (is_upper a || is_lower a) s')
end.

Fixpoint lstrip (s : string) : string :=
match s with
| String a s' => if is_space a then lstrip s' else s
| EmptyString => EmptyString
end.

Definition strip (s : string) : string :=
String.rev (lstrip (String.rev (lstrip s))).

Fixpoint digits_value (acc : Z) (s : string) : option Z :=
match s with
| EmptyString => Some acc
| String a s' =>
    if is_digit a then digits_value (10 * acc + Z.of_nat (nat_of_ascii a - 48)) s'
    else None
end.

Definition parse_integer (s : string) : number :=
match s with
| EmptyString => NFloat NaN
| String "-" (String _ _ as s') =>
    match digits_value 0 s' with
    | Some z => NInt (- z)
    | None => NFloat NaN
    end
| _ =>
    match digits_value 0 s with
    | Some z => NInt z
    | None => NFloat NaN
    end
end.

Definition quoted (s : string) : string := "'" +:+ s +:+ "'".

Definition joined (l : list string) : string := String.concat ", " l.

Definition is_true (v : value) : bool :=
match v with VBool true => true | _ => false end.

#[local] Instance example_runtime : Runtime := {|
  float_repr q := pretty (Qnum q) +:+ "/" +:+ pretty (Zpos (Qden q));
  parse_number := parse_integer;
  str_title := title_from false;
  str_upper := map_string upper_char;
  str_lower := map_string lower_char;
  str_strip := strip;
  regex_sub pattern replacement :=
    match pattern with
    | EmptyString => None
    | _ => Some (fun s => str_replace s pattern replacement)
    end;
  df_eval d condition :=
    match condition with
    | None => Raise (ValueError "expr cannot be an empty string")
    | Some c =>
        if has_column d c then Ok (map is_true (series d c))
        else Raise (OtherError ("name " +:+ quoted c +:+ " is not defined"))
    end;
  repr_set l :=
    "{" +:+ joined (map (fun v => match v with VStr s => quoted s | VNone => "None" | _ => "?" end) l) +:+ "}";
  repr_list l := "[" +:+ joined (map quoted l) +:+ "]";
  repr_dict d := "{" +:+ joined (map (fun kv => quoted kv.1 +:+ ": " +:+ quoted kv.2) d) +:+ "}";
  clock n := "T" +:+ pretty n;
|}.

(** The empty state of a new improver, with the objects [l] in store. *)
Definition fresh_improver (l : list DataFrame) : state :=
{| frames := l; improvement_log := []; clock_reads := 0 |}.

(** A frame of one column. *)
Definition one_column (c : string) (values : list value) : DataFrame :=
mkDataFrame [c] (map (fun v => {[ c := v ]}) values).

(** The data of scenario A: ten rows, one of them without a code. *)
Definition scenario_A : DataFrame :=
one_column "CSP"
  [VStr "1"; VStr "2"; VStr "cadre"; VNone; VStr "9";
   VStr "1"; VStr "2"; VStr "3"; VStr "4"; VStr "employe"].

Definition valid_csp : list value := [VStr "1"; VStr "2"; VStr "3"; VStr "4"].

(** A frame with a column and no row. *)
Definition no_rows : DataFrame := mkDataFrame ["a"] [].

(** ** The overall score as the specification words it *)

Definition spec_mean (scores : list npfloat) : npfloat :=
match scores with
| [] => Fin 0
| _ => div (sum scores) (of_nat (length scores))
end.

Definition spec_overall
  (completeness_report : list (string * completeness_entry))
  (duplicates_report : duplicates_report)
  (format_reports : list (string * check_result format_report))
  (codification_reports : list (string * check_result codification_report))
  : npfloat :=
add (add (add
  (mul (Fin (30 # 100))
       (spec_mean (map (fun r => c_completeness_score r.2) completeness_report)))
  (mul (Fin (25 # 100)) (d_uniqueness_score duplicates_report)))
  (mul (Fin (25 # 100))
       (spec_mean (map (fun r => score_or_zero format_consistency_score r.2) format_reports))))
  (mul (Fin (20 # 100))
       (spec_mean (map (fun r => score_or_zero k_codification_score r.2) codification_reports))).

(** The same sum as it is computed, from left to right, every operation
    rounding as the arithmetic does; the mean of no score is 0, and so is a
    score that a report does not have. *)
Definition mean_of `{Arithmetic F} (scores : list (option F)) : F :=
match scores with
| [] => literal 0
| _ => np_mean (map (default (literal 0)) scores)
end.

Definition weighted_sum `{Arithmetic F} (completeness uniqueness format codification : F) : F :=
plus (plus (plus (times completeness (literal (3 # 10)))
                 (times uniqueness (literal (25 # 100))))
           (times format (literal (25 # 100))))
     (times codification (literal (20 # 100))).

(** The tier of a score: 90 and more is Excellent, 80 and more Good, 70 and
    more Fair, 60 and more Poor, anything else Very Poor. *)
Definition spec_tier (score : npfloat) (level : string) : Prop :=
match score with
| Fin q =>
    (90 <= q /\ level = "Excellent") \/
    (80 <= q /\ q < 90 /\ level = "Good") \/
    (70 <= q /\ q < 80 /\ level = "Fair") \/
    (60 <= q /\ q < 70 /\ level = "Poor") \/
    (q < 60 /\ level = "Very Poor")
| PInf => level = "Excellent"
| NInf | NaN => level = "Very Poor"
end%Q.

(** ** What an operation of the improver may change *)

(** Every object of the first state is unchanged in the second, and the
    log of the second is the log of the first with new entries after it. *)
Definition preserves (st st' : state) : Prop :=
(forall l d, frames st !! l = Some d -> frames st' !! l = Some d)
/\ exists new, improvement_log st' = improvement_log st ++ new.

(** The outcome of an operation run in [st]: the objects of [st] are left
    as they were, and a reference that is returned is to an object that did
    not exist in [st]. *)
Definition frame_condition (st : state) (out : result ref * state) : Prop :=
preserves st out.2
/\ match out.1 with
   | Ok l' => frames st !! l' = None /\ is_Some (frames out.2 !! l')
   | Raise _ => True
   end.

(** The second state differs from the first in the object [l] and in new
    log entries at most. *)
Definition touches (l : ref) (st st' : state) : Prop :=
length (frames st') = length (frames st)
/\ (forall k, k <> l -> frames st' !! k = frames st !! k)
/\ exists new, improvement_log st' = improvement_log st ++ new.

Definition only_touches {A : Type} (l : ref) (m : M A) : Prop :=
forall st, touches l st (m st).2.

(** What an assignment to the column [c'] of a frame leaves as it was. *)
Definition same_but (c' : string) (d d' : DataFrame) : Prop :=
df_columns d' = df_columns d
/\ len d' = len d
/\ forall c, c <> c' -> series d' c = series d c.

(** The strategies [improve_completeness] knows. *)
Definition known_strategy (strategy : value) : bool :=
is_string strategy "mean" || is_string strategy "mode"
|| is_string strategy "forward_fill"
|| match strategy with VStr s => startswith s "custom_" | _ => false end.

(** In the state, the object [l] has the columns [cols], and [s] is its
    column [c]. *)
Definition column_is (l : ref) (c : string) (s : list value) (cols : list string)
  (st : state) : Prop :=
exists d, frames st !! l = Some d /\ series d c = s /\ df_columns d = cols.

(** A choice of key columns that [drop_duplicates] accepts: no choice (all
    the columns), or columns of the frame, at least one. *)
Definition valid_subset (d : DataFrame) (subset : option (list string)) : Prop :=
match subset with
| None => True
| Some l => l <> [] /\ forall c, c ∈ l -> c ∈ df_columns d
end.

(** The key of a row under a choice of key columns. *)
Definition key_under (d : DataFrame) (subset : option (list string)) (r : row) : list key :=
row_key (default (df_columns d) subset) r.

(** A frame without columns has no rows. *)
Definition has_columns_or_no_rows (d : DataFrame) : Prop :=
df_columns d <> [] \/ df_rows d = [].

(** Two rows match on the key when their values match in every key column.
    Two values match when they are the same string, or numbers of the same
    numerical value ([1], [1.0] and [True] match), or both [None], or both
    [nan]; [None] matches [nan] only when there are [several] key
    columns. *)
Definition same_number (x y : npfloat) : Prop :=
match x, y with
| Fin p, Fin q => (p == q)%Q
| PInf, PInf | NInf, NInf | NaN, NaN => True
| _, _ => False
end.

Definition same_value (several : bool) (a b : value) : Prop :=
match a, b with
| VStr s, VStr t => s = t
| VNone, VNone => True
| VNone, VFloat NaN | VFloat NaN, VNone => several = true
| VStr _, _ | _, VStr _ | VNone, _ | _, VNone => False
| _, _ => same_number (as_float a) (as_float b)
end.

Definition several_columns (l : list string) : bool := negb (Nat.eqb (length l) 1).

Definition same_on_key (d : DataFrame) (subset : option (list string)) (r r' : row) : Prop :=
let key_columns := default (df_columns d) subset in
forall c, c ∈ key_columns ->
  same_value (several_columns key_columns) (cell r c) (cell r' c).

(** No row matches an earlier one. *)
Definition no_two_match (d : DataFrame) (subset : option (list string))
  (rows : list row) : Prop :=
forall i j r r', (i < j)%nat -> rows !! i = Some r -> rows !! j = Some r' ->
  ~ same_on_key d subset r r'.

(** The function on strings that a formatting rule applies, for the rules
    that work on strings. *)
Definition text_rule `{Runtime} (rule : format_rule) : option (string -> string) :=
match rule with
| RuleStr rule =>
    if String.eqb rule "title_case" then Some str_title
    else if String.eqb rule "upper_case" then Some str_upper
    else if String.eqb rule "lower_case" then Some str_lower
    else if String.eqb rule "clean_spaces" then Some str_strip
    else None
| RuleDict rule =>
    match dict_get rule "regex" with
    | Some pattern => regex_sub pattern (default EmptyString (dict_get rule "replacement"))
    | None => None
    end
end.

(** The column [c] of the dataset an operation returns; no value when it
    raises. *)
Definition result_series (out : result ref * state) (c : string) : list value :=
match out.1 with
| Ok l => from_option (fun d => series d c) [] (frames out.2 !! l)
| Raise _ => []
end.

(** ** Example data *)

(** A completeness report of one column that is a third complete, and a
    duplicates report without duplicates. *)
Definition third_complete : list (string * completeness_entry) :=
[("a", {| missing_count := 2; missing_percentage := Fin (6667 # 100);
          complete_count := 1; c_completeness_score := Fin (3333 # 100) |})].

Definition all_unique : duplicates_report :=
{| total_rows := 3; duplicate_count := 0; duplicate_percentage := Fin 0;
   unique_rows := 3; d_uniqueness_score := Fin 100 |}.

(** A completeness score of 66.66 with three perfect other scores. *)
Definition nearly_excellent : list (string * completeness_entry) :=
[("a", {| missing_count := 3334; missing_percentage := Fin (3334 # 100);
          complete_count := 6666; c_completeness_score := Fin (6666 # 100) |})].

Definition perfect_format : list (string * check_result format_report) :=
[("a", Report {| total_non_null := 3; data_types := ∅;
                 numeric_convertible := 3;
                 format_consistency_score := Fin 100 |})].

Definition perfect_codes : list (string * check_result codification_report) :=
[("CSP", Report {| total_values := 3; unique_values := 3;
                   valid_codes_count := 3; invalid_codes_count := 0;
                   invalid_values := [];
                   k_codification_score := Fin 100 |})].

(** The mapping of the codes of the population data, and one that
    exchanges two codes. *)
Definition csp_mapping : gmap string string :=
{[ "cadre" := "1"; "employe" := "2"; "ouvrier" := "3"; "retraite" := "4" ]}.

Definition swap_mapping : gmap string string := {[ "1" := "2"; "2" := "1" ]}.

(** A column of names, one of them missing. *)
Definition names : DataFrame := one_column "Nom" [VStr "durand"; VNone].

(** Two rows and no column; the two kinds of missing value in one column,
    and next to a second column. *)
Definition no_columns : DataFrame := mkDataFrame [] [∅; ∅].

Definition missing_twice : DataFrame :=
one_column "a" [VNone; VFloat NaN; VStr "a"; VFloat NaN; VNone].

Definition missing_twice_of_two : DataFrame :=
mkDataFrame ["a"; "b"]
  [{[ "a" := VNone; "b" := VInt 1 ]}; {[ "a" := VFloat NaN; "b" := VFloat (Fin 1) ]};
   {[ "a" := VStr "a"; "b" := VBool true ]}].

(** Scenario B: five rows, four of them the same. *)
Definition majority_row : row := {[ "id" := VInt 1; "val" := VStr "a" ]}.
Definition minority_row : row := {[ "id" := VInt 1; "val" := VStr "b" ]}.

Definition scenario_B : DataFrame :=
mkDataFrame ["id"; "val"]
  [majority_row; majority_row; minority_row; majority_row; majority_row].

(** Daily consumption, with a column that marks the rows to cap. *)
Definition consumption : DataFrame :=
mkDataFrame ["NB_KW_Jour"; "high"]
  [{[ "NB_KW_Jour" := VInt 12; "high" := VBool false ]};
   {[ "NB_KW_Jour" := VInt 80; "high" := VBool true ]}].

(** A rule whose condition names no column, and a rule that caps. *)
Definition broken_rule : business_rule :=
{| rule_name := Some "validate_region";
   rule_condition := Some "Region";
   rule_action := Some {[ "type" := VStr "set_value"; "column" := VStr "Region";
                          "value" := VStr "?" ]} |}.

Definition cap_rule : business_rule :=
{| rule_name := Some "cap_high_consumption";
   rule_condition := Some "high";
   rule_action := Some {[ "type" := VStr "set_value"; "column" := VStr "NB_KW_Jour";
                          "value" := VInt 50 ]} |}.

(** ** Further functions of the two modules and of their callers *)

(** *** [DataQualityImprover.get_improvement_summary] *)






(** *** [DataQualityImprover.handle_granularity_issues] *)


Section granularity.
Context `{Runtime}.

(** [df.groupby(group_by)[agg_column].mean()], [.sum()] or [.count()],
    followed by [.reset_index()]: the aggregated frame, or the exception
    pandas raises. *)
Variable groupby_aggregate :
  DataFrame -> list string -> string -> string -> result DataFrame.




End granularity.

(** *** The two configurations *)




(** *** [SimplifiedETL.improve_data_quality] ([etl_quality_focused.py]) *)




(** *** [LocalETLRunner.decide_cleaning_strategy] ([run_etl_local.py]) *)









(** * Properties *)

(** ** Floats *)

Lemma feq_refl (a : npfloat) : feq a a.
Proof. destruct a; simpl; auto. reflexivity. Qed.

Lemma feq_sym (a b : npfloat) : feq a b -> feq b a.
Proof. destruct a, b; simpl; auto. intros ->. reflexivity. Qed.

Lemma feq_trans (a b c : npfloat) : feq a b -> feq b c -> feq a c.
Proof. destruct a, b, c; simpl; auto; try tauto. intros -> ->. reflexivity. Qed.

#[global] Instance feq_equiv : Equivalence feq.
Proof.
  split.
  - exact feq_refl.
  - exact feq_sym.
  - exact feq_trans.
Qed.

#[global] Instance inf_of_sign_compare_proper :
  Proper (Qeq ==> Qeq ==> eq) (fun x y => inf_of_sign (x ?= y)%Q).
Proof. intros x x' Hx y y' Hy. now rewrite Hx, Hy. Qed.

#[global] Instance add_proper : Proper (feq ==> feq ==> feq) add.
Proof.
  intros [x| | |] [x'| | |] Hx [y| | |] [y'| | |] Hy; simpl in *; try tauto.
  now rewrite Hx, Hy.
Qed.

#[global] Instance mul_proper : Proper (feq ==> feq ==> feq) mul.
Proof.
  intros [x| | |] [x'| | |] Hx [y| | |] [y'| | |] Hy; simpl in *; try tauto;
    try (rewrite Hx; apply feq_refl); try (rewrite Hy; apply feq_refl).
  now rewrite Hx, Hy.
Qed.

Lemma round_half_even_proper (x y : Q) :
  (x == y)%Q -> round_half_even x = round_half_even y.
Proof.
  intros E. unfold round_half_even.
  assert (Ef : Qfloor x = Qfloor y) by now rewrite E.
  assert (Ec : (x - inject_Z (Qfloor x) ?= 1 # 2)%Q = (y - inject_Z (Qfloor y) ?= 1 # 2)%Q)
    by now rewrite Ef, E.
  now rewrite Ec, Ef.
Qed.

#[global] Instance round2_proper : Proper (feq ==> feq) round2.
Proof.
  intros [x| | |] [y| | |] E; simpl in *; try tauto.
  rewrite (round_half_even_proper (x * 100) (y * 100)); [reflexivity | now rewrite E].
Qed.

Lemma geb_proper (a b : npfloat) (c : Q) : feq a b -> geb a c = geb b c.
Proof.
  destruct a as [x| | |], b as [y| | |]; simpl; try tauto.
  intros E. now rewrite E.
Qed.

Lemma mul_comm (a b : npfloat) : feq (mul a b) (mul b a).
Proof. destruct a, b; simpl; auto; try apply feq_refl. ring. Qed.

(** ** The Quality Evaluator *)

Lemma Qle_bool_false (x y : Q) : Qle_bool x y = false -> (y < x)%Q.
Proof.
  intros E. apply Qnot_le_lt. intros Hle.
  apply Qle_bool_iff in Hle. congruence.
Qed.

Lemma get_quality_level_tier (score : npfloat) :
  spec_tier score (get_quality_level score).
Proof.
  destruct score as [q| | |]; try reflexivity.
  unfold get_quality_level, geb, spec_tier.
  destruct (Qle_bool 90 q) eqn:E90; [apply Qle_bool_iff in E90; tauto |].
  apply Qle_bool_false in E90.
  destruct (Qle_bool 80 q) eqn:E80; [apply Qle_bool_iff in E80; tauto |].
  apply Qle_bool_false in E80.
  destruct (Qle_bool 70 q) eqn:E70; [apply Qle_bool_iff in E70; tauto |].
  apply Qle_bool_false in E70.
  destruct (Qle_bool 60 q) eqn:E60; [apply Qle_bool_iff in E60; tauto |].
  apply Qle_bool_false in E60. tauto.
Qed.

Lemma get_quality_level_proper (a b : npfloat) :
  feq a b -> get_quality_level a = get_quality_level b.
Proof.
  intros E. unfold get_quality_level.
  now rewrite !(geb_proper a b _ E).
Qed.

Lemma mean_or_zero_spec (scores : list npfloat) : mean_or_zero scores = spec_mean scores.
Proof. destruct scores; reflexivity. Qed.

Lemma weight_30 (a : npfloat) : feq (mul a (Fin (3 # 10))) (mul (Fin (30 # 100)) a).
Proof. destruct a; simpl; auto. ring. Qed.

Lemma weight_comm (a : npfloat) (w : Q) : feq (mul a (Fin w)) (mul (Fin w) a).
Proof. apply mul_comm. Qed.

(** The score before rounding is the weighted sum of the specification. *)
Lemma overall_score_spec c d f k :
  feq (add (add (add
         (mul (mean_or_zero (map (fun r => c_completeness_score r.2) c)) (Fin (3 # 10)))
         (mul (d_uniqueness_score d) (Fin (25 # 100))))
         (mul (mean_or_zero (map (fun r => score_or_zero format_consistency_score r.2) f))
              (Fin (25 # 100))))
         (mul (mean_or_zero (map (fun r => score_or_zero k_codification_score r.2) k))
              (Fin (20 # 100))))
      (spec_overall c d f k).
Proof.
  unfold spec_overall. rewrite !mean_or_zero_spec.
  repeat apply add_proper; first [apply weight_30 | apply weight_comm].
Qed.

(** Without rounding but in [round], the score returned is the sum the
    specification words, rounded to two decimals, and the tier is the one of
    the sum before it is rounded. *)
Lemma exact_score_is_rounded_sum
  (c : list (string * completeness_entry)) (d : duplicates_report)
  (f : list (string * check_result format_report))
  (k : list (string * check_result codification_report)) :
  feq (overall_quality_score (calculate_data_quality_score c d f k))
      (round2 (spec_overall c d f k))
  /\ spec_tier (spec_overall c d f k)
       (quality_level (calculate_data_quality_score c d f k)).
Proof.
  split.
  - unfold calculate_data_quality_score; cbn [overall_quality_score].
    apply round2_proper, overall_score_spec.
  - unfold calculate_data_quality_score; cbn [quality_level].
    rewrite (get_quality_level_proper _ _ (overall_score_spec c d f k)).
    apply get_quality_level_tier.
Qed.

(** The score over the rationals is the score in the arithmetic that does
    not round. *)
Lemma calculate_data_quality_score_exact
  (c : list (string * completeness_entry)) (d : duplicates_report)
  (f : list (string * check_result format_report))
  (k : list (string * check_result codification_report)) :
  let '(c', d', f', k') := scores_read c d f k in
  let score := Doubles.calculate_data_quality_score c' d' f' k' in
  calculate_data_quality_score c d f k
  = {| completeness_score := Doubles.completeness_score score;
       uniqueness_score := Doubles.uniqueness_score score;
       format_score := Doubles.format_score score;
       codification_score := Doubles.codification_score score;
       overall_quality_score := Doubles.overall_quality_score score;
       quality_level := Doubles.quality_level score |}.
Proof.
  unfold scores_read, calculate_data_quality_score, Doubles.calculate_data_quality_score.
  cbn [Doubles.completeness_score Doubles.uniqueness_score Doubles.format_score
       Doubles.codification_score Doubles.overall_quality_score Doubles.quality_level].
  rewrite !map_map. cbn [fst snd default from_option id].
  assert (Ef : map (fun r : string * check_result format_report =>
                      score_or_zero format_consistency_score r.2) f
               = map (fun r : string * check_result format_report =>
                        match match r.2 with
                              | Report r0 => Some (format_consistency_score r0)
                              | CheckError _ => None
                              end with
                        | Some x => x
                        | None => literal 0
                        end) f).
  { apply map_ext. intros [col []]; reflexivity. }
  assert (Ek : map (fun r : string * check_result codification_report =>
                      score_or_zero k_codification_score r.2) k
               = map (fun r : string * check_result codification_report =>
                        match match r.2 with
                              | Report r0 => Some (k_codification_score r0)
                              | CheckError _ => None
                              end with
                        | Some x => x
                        | None => literal 0
                        end) k).
  { apply map_ext. intros [col []]; reflexivity. }
  rewrite Ef, Ek. reflexivity.
Qed.

Lemma mean_of_scores `{Arithmetic F} (scores : list (option F)) :
  mean_of scores = Doubles.mean_or_zero (map (default (literal 0)) scores).
Proof. now destruct scores. Qed.

(** C2, as amended: whatever the operations on doubles round to, the score
    returned as [overall_quality_score] is [round(s, 2)] for the sum [s] =
    mean completeness * 0.3 + uniqueness * 0.25 + mean format * 0.25 + mean
    codification * 0.20 as it is computed (a mean over no report, and a
    score that a report does not have, being 0); the tier is the one of [s],
    not of the rounded score; the four other scores are the rounded terms;
    and empty maps of sub-reports give a result like any other. *)
Theorem calculate_data_quality_score_weighted `{Arithmetic F}
  (c : list (string * F)) (d : option F) (f k : list (string * option F)) :
  let score := Doubles.calculate_data_quality_score c d f k in
  let completeness := mean_of (map (fun r => Some r.2) c) in
  let uniqueness := default (literal 0) d in
  let format := mean_of (map snd f) in
  let codification := mean_of (map snd k) in
  let s := weighted_sum completeness uniqueness format codification in
  Doubles.overall_quality_score score = round_2 s
  /\ spec_tier (number_of s) (Doubles.quality_level score)
  /\ Doubles.completeness_score score = round_2 completeness
  /\ Doubles.uniqueness_score score = round_2 uniqueness
  /\ Doubles.format_score score = round_2 format
  /\ Doubles.codification_score score = round_2 codification
  /\ Doubles.overall_quality_score (Doubles.calculate_data_quality_score [] None [] [])
     = round_2 (weighted_sum (literal 0) (literal 0) (literal 0) (literal 0)).
Proof.
  intros score completeness uniqueness format codification s.
  assert (Ec : completeness = Doubles.mean_or_zero (map (fun r => r.2) c)).
  { unfold completeness. rewrite mean_of_scores, map_map. reflexivity. }
  assert (Ef : format = Doubles.mean_or_zero (map (fun r => default (literal 0) r.2) f)).
  { unfold format. rewrite mean_of_scores, map_map. reflexivity. }
  assert (Ek : codification
               = Doubles.mean_or_zero (map (fun r => default (literal 0) r.2) k)).
  { unfold codification. rewrite mean_of_scores, map_map. reflexivity. }
  assert (Es : s = weighted_sum (Doubles.mean_or_zero (map (fun r => r.2) c)) uniqueness
                     (Doubles.mean_or_zero (map (fun r => default (literal 0) r.2) f))
                     (Doubles.mean_or_zero (map (fun r => default (literal 0) r.2) k))).
  { unfold s. now rewrite Ec, Ef, Ek. }
  rewrite Es, Ec, Ef, Ek.
  split; [reflexivity |]. split; [| repeat split; reflexivity].
  apply (get_quality_level_tier (number_of _)).
Qed.

(** C2, counterexample: the weighted sum of a completeness of 33.33 and a
    uniqueness of 100 is 34.999, the score returned is 35; and with a sum
    of 89.998 the score returned is 90 while the tier is Good. *)
Lemma overall_quality_score_is_rounded :
  ~ feq (overall_quality_score (calculate_data_quality_score third_complete all_unique [] []))
        (spec_overall third_complete all_unique [] [])
  /\ feq (overall_quality_score
            (calculate_data_quality_score nearly_excellent all_unique perfect_format perfect_codes))
         (Fin 90)
  /\ quality_level
       (calculate_data_quality_score nearly_excellent all_unique perfect_format perfect_codes)
     = "Good".
Proof.
  split; [| split].
  - vm_compute. discriminate.
  - vm_compute. reflexivity.
  - vm_compute. reflexivity.
Qed.

(** C8, as amended: in scenario A the missing value is left out of the
    denominator, six of the nine other values are valid codes, the score is
    100 x 6 / 9 rounded, 66.67, and the invalid values reported are
    "cadre", "9" and "employe". *)
Theorem scenario_A_codification `{Runtime} :
  exists r,
    check_codification_consistency scenario_A "CSP" (Some valid_csp) = Report r
    /\ total_values r = 9%nat
    /\ valid_codes_count r = 6%Z
    /\ invalid_codes_count r = 3%Z
    /\ invalid_values r = [VStr "cadre"; VStr "9"; VStr "employe"]
    /\ feq (k_codification_score r) (round2 (Fin (100 * 6 / 9)))
    /\ feq (k_codification_score r) (Fin (6667 # 100)).
Proof.
  eexists. split; [vm_compute; reflexivity |].
  repeat split; vm_compute; reflexivity.
Qed.

(** C8, counterexample: the score of scenario A is not 44.44. *)
Lemma scenario_A_score_is_not_44_44 :
  ~ exists r,
      check_codification_consistency scenario_A "CSP" (Some valid_csp) = Report r
      /\ feq (k_codification_score r) (Fin (4444 # 100)).
Proof.
  intros (r & Hr & Hscore).
  vm_compute in Hr. injection Hr as <-.
  vm_compute in Hscore. discriminate.
Qed.

Lemma filter_missing_nil (df : DataFrame) (l : list string) :
  (forall c, c ∈ l -> c ∈ df_columns df) ->
  List.filter (fun c => negb (has_column df c)) l = [].
Proof.
  induction l as [|c l IH]; intros Hl; [reflexivity |].
  simpl. unfold has_column at 1.
  rewrite bool_decide_eq_true_2 by (apply Hl; left).
  simpl. apply IH. intros c' Hc'. apply Hl. now right.
Qed.

Lemma check_completeness_all (df : DataFrame) :
  check_completeness df None
  = Ok (map (fun col => (col, completeness_of df col)) (df_columns df)).
Proof.
  unfold check_completeness. simpl.
  now rewrite filter_missing_nil.
Qed.

Lemma length_mark_seen (seen ks : list (list key)) :
  length (mark_seen seen ks) = length ks.
Proof. revert seen. induction ks as [|k ks IH]; intros seen; simpl; [|rewrite IH]; reflexivity. Qed.

Lemma length_mark_duplicates (keep : keep_policy) (ks : list (list key)) :
  length (mark_duplicates keep ks) = length ks.
Proof.
  destruct keep; simpl.
  - apply length_mark_seen.
  - now rewrite length_rev, length_mark_seen, length_rev.
  - rewrite length_zip_with, length_rev, !length_mark_seen, length_rev. lia.
Qed.

(** With [subset=None], [duplicated] does not raise: it marks every row of
    a frame that is not empty, and nothing in an empty one. *)
Lemma duplicated_all (df : DataFrame) (keep : keep_policy) :
  exists mask,
    duplicated df None keep = Ok mask
    /\ length mask = if df_empty df then 0%nat else len df.
Proof.
  unfold duplicated. destruct (df_empty df) eqn:E; [now exists [] |].
  simpl. rewrite filter_missing_nil by auto.
  destruct (df_columns df) as [|c cs] eqn:Ec.
  - unfold df_empty in E. rewrite Ec in E. now destruct (df_rows df).
  - eexists. split; [reflexivity |].
    now rewrite length_mark_duplicates, length_map.
Qed.

Lemma check_duplicates_all (df : DataFrame) :
  exists mask,
    duplicated df None KeepFirst = Ok mask
    /\ (length mask <= len df)%nat
    /\ check_duplicates df None
       = Ok {| total_rows := len df;
               duplicate_count := count_true mask;
               duplicate_percentage := percentage (count_true mask) (len df);
               unique_rows := Z.of_nat (len df) - count_true mask;
               d_uniqueness_score :=
                 percentage (Z.of_nat (len df) - count_true mask) (len df) |}.
Proof.
  destruct (duplicated_all df KeepFirst) as (mask & Hmask & Hlen).
  destruct (duplicated_all df KeepNone) as (mask' & Hmask' & _).
  exists mask. split; [assumption |]. split.
  - rewrite Hlen. destruct (df_empty df); lia.
  - unfold check_duplicates. now rewrite Hmask', Hmask.
Qed.

(** The report is made of the clock reading and of a part that depends on
    the dataset and on the source name only. *)
Lemma generate_quality_report_ok `{Runtime} (df : DataFrame) (source_name now : string) :
  exists completeness duplicates,
    check_completeness df None = Ok completeness
    /\ check_duplicates df None = Ok duplicates
    /\ generate_quality_report df source_name now
       = Ok {| source_name := source_name;
               timestamp := now;
               r_dataset_info :=
                 {| info_total_rows := len df;
                    total_columns := length (df_columns df);
                    columns := df_columns df |};
               completeness := completeness;
               duplicates := duplicates;
               format_consistency :=
                 map (fun col => (col, check_format_consistency df col))
                     (List.filter (format_checked df) (df_columns df));
               codification_consistency :=
                 if has_column df "CSP" then
                   [("CSP", check_codification_consistency df "CSP" (Some valid_csp))]
                 else [];
               r_quality_score :=
                 calculate_data_quality_score completeness duplicates
                   (map (fun col => (col, check_format_consistency df col))
                        (List.filter (format_checked df) (df_columns df)))
                   (if has_column df "CSP" then
                      [("CSP", check_codification_consistency df "CSP" (Some valid_csp))]
                    else []) |}.
Proof.
  destruct (check_duplicates_all df) as (mask & _ & _ & Hd).
  eexists _, _. split; [apply check_completeness_all |]. split; [exact Hd |].
  unfold generate_quality_report. now rewrite check_completeness_all, Hd.
Qed.

(** C3, as amended: two calls on the same dataset and source name both
    return a report, and the two reports are equal in every field but
    [timestamp], which holds the clock reading of each call. *)
Theorem generate_quality_report_deterministic `{Runtime}
  (df : DataFrame) (name now1 now2 : string) :
  exists r1 r2,
    generate_quality_report df name now1 = Ok r1
    /\ generate_quality_report df name now2 = Ok r2
    /\ timestamp r1 = now1 /\ timestamp r2 = now2
    /\ source_name r1 = source_name r2
    /\ r_dataset_info r1 = r_dataset_info r2
    /\ completeness r1 = completeness r2
    /\ duplicates r1 = duplicates r2
    /\ format_consistency r1 = format_consistency r2
    /\ codification_consistency r1 = codification_consistency r2
    /\ r_quality_score r1 = r_quality_score r2.
Proof.
  destruct (generate_quality_report_ok df name now1) as (c1 & d1 & Hc1 & Hd1 & H1).
  destruct (generate_quality_report_ok df name now2) as (c2 & d2 & Hc2 & Hd2 & H2).
  assert (c1 = c2) as <- by congruence.
  assert (d1 = d2) as <- by congruence.
  eexists _, _. split; [exact H1 |]. split; [exact H2 |].
  repeat split.
Qed.

(** C3, counterexample: two calls on the same dataset, made at two readings
    of the clock, return two different reports. *)
Lemma generate_quality_report_timestamp_differs :
  generate_quality_report scenario_A "population" "2025-10-05T17:01:19.000001"
  <> generate_quality_report scenario_A "population" "2025-10-05T17:01:19.000002".
Proof.
  destruct (generate_quality_report_ok scenario_A "population"
              "2025-10-05T17:01:19.000001") as (c1 & d1 & _ & _ & ->).
  destruct (generate_quality_report_ok scenario_A "population"
              "2025-10-05T17:01:19.000002") as (c2 & d2 & _ & _ & ->).
  intros E. injection E as E _. discriminate E.
Qed.

(** C1, at the failing input: on a dataset of one column and no row the
    completeness score of the column, the uniqueness score and the
    aggregate scores built from them are [nan], not numbers of [0, 100]. *)
Theorem no_rows_scores_are_nan `{Runtime} :
  check_completeness no_rows None
  = Ok [("a", {| missing_count := 0; missing_percentage := NaN;
                 complete_count := 0; c_completeness_score := NaN |})]
  /\ (exists d, check_duplicates no_rows None = Ok d /\ d_uniqueness_score d = NaN)
  /\ (exists r,
        generate_quality_report no_rows "source" "now" = Ok r
        /\ completeness_score (r_quality_score r) = NaN
        /\ uniqueness_score (r_quality_score r) = NaN
        /\ overall_quality_score (r_quality_score r) = NaN)
  /\ ~ in_0_100 NaN.
Proof.
  split; [reflexivity |].
  split; [eexists; split; reflexivity |].
  split; [| intros []].
  eexists. split; [vm_compute; reflexivity |]. repeat split.
Qed.

(** ** The state monad of the improver *)

Lemma bind_ok {A B : Type} (m : M A) (f : A -> M B) (st st' : state) (a : A) :
  m st = (Ok a, st') -> bind m f st = f a st'.
Proof. unfold bind. now intros ->. Qed.

Lemma bind_raise {A B : Type} (m : M A) (f : A -> M B) (st st' : state) (e : exn) :
  m st = (Raise e, st') -> bind m f st = (Raise e, st').
Proof. unfold bind. now intros ->. Qed.

Lemma for_each_app {A : Type} (l1 l2 : list A) (body : A -> M unit) (st : state) :
  for_each (l1 ++ l2) body st
  = match for_each l1 body st with
    | (Ok _, st') => for_each l2 body st'
    | (Raise e, st') => (Raise e, st')
    end.
Proof.
  revert st. induction l1 as [|x l1 IH]; intros st; [reflexivity |].
  simpl. unfold bind.
  destruct (body x st) as [[[]|e] st']; [apply IH | reflexivity].
Qed.

Lemma touches_refl (l : ref) (st : state) : touches l st st.
Proof. repeat split. exists []. now rewrite app_nil_r. Qed.

Lemma touches_trans (l : ref) (st1 st2 st3 : state) :
  touches l st1 st2 -> touches l st2 st3 -> touches l st1 st3.
Proof.
  intros (Hlen1 & Hk1 & new1 & Hlog1) (Hlen2 & Hk2 & new2 & Hlog2).
  split; [congruence |]. split.
  - intros k Hk. rewrite Hk2, Hk1 by assumption. reflexivity.
  - exists (new1 ++ new2). rewrite Hlog2, Hlog1. now rewrite app_assoc.
Qed.

Lemma only_touches_ret {A : Type} (l : ref) (a : A) : only_touches l (ret a).
Proof. intros st. apply touches_refl. Qed.

Lemma only_touches_lift {A : Type} (l : ref) (r : result A) : only_touches l (lift r).
Proof. intros st. apply touches_refl. Qed.

Lemma only_touches_read_frame (l df : ref) : only_touches l (read_frame df).
Proof.
  intros st. unfold read_frame. destruct (frames st !! df); apply touches_refl.
Qed.

Lemma only_touches_write_frame (l : ref) (d : DataFrame) : only_touches l (write_frame l d).
Proof.
  intros st. unfold write_frame, touches. simpl.
  split; [apply length_insert |]. split.
  - intros k Hk. now apply list_lookup_insert_ne.
  - exists []. now rewrite app_nil_r.
Qed.

Lemma only_touches_log_improvement `{Runtime} (l : ref) (action details : string) :
  only_touches l (log_improvement action details).
Proof. intros st. unfold log_improvement, touches. simpl. eauto. Qed.

Lemma only_touches_bind {A B : Type} (l : ref) (m : M A) (f : A -> M B) :
  only_touches l m -> (forall a, only_touches l (f a)) -> only_touches l (bind m f).
Proof.
  intros Hm Hf st. unfold bind. specialize (Hm st).
  destruct (m st) as [[a|e] st']; simpl in *; [| assumption].
  eapply touches_trans; [exact Hm | apply Hf].
Qed.

Lemma only_touches_try_except {A : Type} (l : ref) (body : M A) (handler : exn -> M A) :
  only_touches l body -> (forall e, only_touches l (handler e)) ->
  only_touches l (try_except body handler).
Proof.
  intros Hb Hh st. unfold try_except. specialize (Hb st).
  destruct (body st) as [[a|e] st']; simpl in *; [assumption |].
  eapply touches_trans; [exact Hb | apply Hh].
Qed.

Lemma only_touches_for_each {A : Type} (l : ref) (xs : list A) (body : A -> M unit) :
  (forall x, only_touches l (body x)) -> only_touches l (for_each xs body).
Proof.
  intros Hbody. induction xs as [|x xs IH]; simpl.
  - apply only_touches_ret.
  - apply only_touches_bind; auto.
Qed.

Lemma only_touches_getitem (l : ref) (action : option (gmap string value)) (k : string) :
  only_touches l (getitem action k).
Proof.
  unfold getitem. destruct action as [a|]; [destruct (a !! k) |];
    auto using @only_touches_ret, @only_touches_lift.
Qed.

Lemma only_touches_column_label `{Runtime} (l : ref) (v : value) :
  only_touches l (column_label v).
Proof. destruct v; simpl; auto using @only_touches_ret, @only_touches_lift. Qed.

Create HintDb touches discriminated.
#[export] Hint Resolve only_touches_ret only_touches_lift only_touches_read_frame
  only_touches_write_frame only_touches_log_improvement only_touches_getitem
  only_touches_column_label : touches.

(** One step on a goal [only_touches l m], after the shape of [m]. *)
Ltac touches_step :=
  match goal with
  | |- only_touches _ (bind _ _) => apply only_touches_bind; [| intros ?]
  | |- only_touches _ (try_except _ _) => apply only_touches_try_except; [| intros ?]
  | |- only_touches _ (for_each _ _) => apply only_touches_for_each; intros ?
  | |- only_touches _ (if ?b then _ else _) => destruct b
  | |- only_touches _ (match ?x with _ => _ end) => destruct x
  | |- only_touches _ _ => solve [auto with touches]
  end.

Lemma only_touches_apply_action `{Runtime} (l : ref) (mask : list bool)
  (action : option (gmap string value)) :
  only_touches l (apply_action l mask action).
Proof. unfold apply_action. repeat touches_step. Qed.

Lemma only_touches_apply_rule `{Runtime} (l : ref) (rule : business_rule) :
  only_touches l (apply_rule l rule).
Proof.
  unfold apply_rule. repeat touches_step.
  apply only_touches_apply_action.
Qed.

(** ** Frame of the five operations *)

Lemma preserves_new_frame (st st' : state) (d : DataFrame) :
  touches (length (frames st))
    (mkState (frames st ++ [d]) (improvement_log st) (clock_reads st)) st' ->
  preserves st st'
  /\ frames st !! length (frames st) = None
  /\ is_Some (frames st' !! length (frames st)).
Proof.
  intros (Hlen & Hk & new & Hlog). simpl in *.
  split; [split |]; [| | split].
  - intros l d0 Hl.
    assert (l < length (frames st))%nat by (eapply lookup_lt_Some; eauto).
    rewrite Hk by lia. now apply lookup_app_l_Some.
  - now exists new.
  - apply lookup_ge_None. lia.
  - apply lookup_lt_is_Some. rewrite Hlen, length_app. simpl. lia.
Qed.

(** An operation that copies its argument and then works on the copy. *)
Lemma frame_copy_then (body : ref -> M unit) (st : state) (df : ref) :
  (forall l, only_touches l (body l)) ->
  frame_condition st ((df_improved <- frame_copy df ;; body df_improved ;; ret df_improved) st).
Proof.
  intros Hbody. unfold frame_copy, bind, read_frame, new_frame, ret.
  destruct (frames st !! df) as [d|] eqn:Hdf; simpl.
  - specialize (Hbody (length (frames st))
      (mkState (frames st ++ [d]) (improvement_log st) (clock_reads st))).
    destruct (body _ _) as [[[]|e] st']; simpl in *;
      apply preserves_new_frame in Hbody; unfold frame_condition; simpl; tauto.
  - split; simpl; [| trivial]. split; [auto |]. exists []. now rewrite app_nil_r.
Qed.

Lemma only_touches_complete_column `{Runtime} (l : ref) (entry : string * value) :
  only_touches l (complete_column l entry).
Proof. unfold complete_column. repeat touches_step. Qed.

Lemma only_touches_standardize_column `{Runtime} (l : ref) (entry : string * format_rule) :
  only_touches l (standardize_column l entry).
Proof. unfold standardize_column. repeat touches_step. Qed.

Lemma only_touches_normalize_column `{Runtime} (l : ref) (entry : string * gmap string string) :
  only_touches l (normalize_column l entry).
Proof. unfold normalize_column. repeat touches_step. Qed.

#[export] Hint Resolve only_touches_complete_column only_touches_standardize_column
  only_touches_normalize_column only_touches_apply_rule only_touches_for_each : touches.

Lemma frame_condition_improve_completeness `{Runtime} st df strategies :
  frame_condition st (improve_completeness df strategies st).
Proof.
  unfold improve_completeness. apply frame_copy_then.
  intros l. repeat touches_step.
Qed.

Lemma frame_condition_standardize_format `{Runtime} st df format_rules :
  frame_condition st (standardize_format df format_rules st).
Proof.
  unfold standardize_format. apply frame_copy_then.
  intros l. repeat touches_step.
Qed.

Lemma frame_condition_normalize_codification `{Runtime} st df codification_rules :
  frame_condition st (normalize_codification df codification_rules st).
Proof.
  unfold normalize_codification. apply frame_copy_then.
  intros l. repeat touches_step.
Qed.

Lemma frame_condition_apply_business_rules `{Runtime} st df business_rules :
  frame_condition st (apply_business_rules df business_rules st).
Proof.
  unfold apply_business_rules. apply frame_copy_then.
  intros l. apply only_touches_for_each. intros rule.
  apply only_touches_apply_rule.
Qed.

Lemma frame_condition_remove_duplicates `{Runtime} st df subset keep :
  frame_condition st (remove_duplicates df subset keep st).
Proof.
  assert (Hraise : forall e, frame_condition st (Raise e, st)).
  { intros e. split; simpl; [| trivial]. split; [auto |]. exists []. now rewrite app_nil_r. }
  unfold remove_duplicates, bind, read_frame, lift, new_frame, ret.
  destruct (frames st !! df) as [d|]; [| apply Hraise].
  destruct (drop_duplicates d subset keep) as [d'|e]; [| apply Hraise].
  set (st1 := mkState (frames st ++ [d']) (improvement_log st) (clock_reads st)).
  assert (Hlog : forall m : M unit, only_touches (length (frames st)) m ->
            frame_condition st
              (match m st1 with
               | (Ok _, st') => (Ok (length (frames st)), st')
               | (Raise e, st') => (Raise e, st')
               end)).
  { intros m Hm. specialize (Hm st1). apply preserves_new_frame in Hm.
    destruct (m st1) as [[[]|e] st']; unfold frame_condition; simpl in *; tauto. }
  destruct (0 <? _)%Z.
  - apply (Hlog (log_improvement _ _)). auto with touches.
  - apply (Hlog (ret tt)). auto with touches.
Qed.

(** C9: each of the five operations, run in any state on a dataset [d] that
    the caller holds, leaves [d] and every other existing dataset as it
    was, adds entries to the improvement log without changing the earlier
    ones, and returns, when it returns, a dataset that did not exist
    before the call. *)
Theorem improver_operations_frame `{Runtime} (st : state) (df : ref) (d : DataFrame) :
  frames st !! df = Some d ->
  (forall strategies,
     frame_condition st (improve_completeness df strategies st)
     /\ frames (improve_completeness df strategies st).2 !! df = Some d)
  /\ (forall subset keep,
        frame_condition st (remove_duplicates df subset keep st)
        /\ frames (remove_duplicates df subset keep st).2 !! df = Some d)
  /\ (forall format_rules,
        frame_condition st (standardize_format df format_rules st)
        /\ frames (standardize_format df format_rules st).2 !! df = Some d)
  /\ (forall codification_rules,
        frame_condition st (normalize_codification df codification_rules st)
        /\ frames (normalize_codification df codification_rules st).2 !! df = Some d)
  /\ (forall business_rules,
        frame_condition st (apply_business_rules df business_rules st)
        /\ frames (apply_business_rules df business_rules st).2 !! df = Some d).
Proof.
  intros Hdf.
  assert (Hkeep : forall out, frame_condition st out ->
            frame_condition st out /\ frames out.2 !! df = Some d).
  { intros out Hout. split; [assumption |]. now apply Hout. }
  repeat split; intros; apply Hkeep;
    auto using frame_condition_improve_completeness, frame_condition_remove_duplicates,
      frame_condition_standardize_format, frame_condition_normalize_codification,
      frame_condition_apply_business_rules.
Qed.

(** ** Assignments to a column *)

Lemma length_series (d : DataFrame) (c : string) : length (series d c) = len d.
Proof. apply length_map. Qed.

Lemma cell_insert (r : row) (c : string) (v : value) : cell (<[c := v]> r) c = v.
Proof. unfold cell. now rewrite lookup_insert_eq. Qed.

Lemma cell_insert_ne (r : row) (c c' : string) (v : value) :
  c <> c' -> cell (<[c' := v]> r) c = cell r c.
Proof. intros Hc. unfold cell. now rewrite lookup_insert_ne. Qed.

Lemma series_set_column (d : DataFrame) (c : string) (values : list value) :
  length values = len d -> series (set_column d c values) c = values.
Proof.
  unfold series, set_column, len. simpl.
  generalize (df_rows d). intros rows. revert values.
  induction rows as [|r rows IH]; intros [|v values] Hlen; simpl in *; try discriminate.
  - reflexivity.
  - rewrite cell_insert, IH by lia. reflexivity.
Qed.

Lemma series_set_column_ne (d : DataFrame) (c c' : string) (values : list value) :
  c <> c' -> length values = len d -> series (set_column d c' values) c = series d c.
Proof.
  intros Hc. unfold series, set_column, len. simpl.
  generalize (df_rows d). intros rows. revert values.
  induction rows as [|r rows IH]; intros [|v values] Hlen; simpl in *; try discriminate.
  - reflexivity.
  - rewrite cell_insert_ne, IH by (assumption || lia). reflexivity.
Qed.

Lemma df_columns_set_column (d : DataFrame) (c : string) (values : list value) :
  has_column d c = true -> df_columns (set_column d c values) = df_columns d.
Proof. intros Hc. unfold set_column. simpl. now rewrite Hc. Qed.

Lemma has_column_true (d : DataFrame) (c : string) : has_column d c = true <-> c ∈ df_columns d.
Proof. unfold has_column. apply bool_decide_eq_true. Qed.

Lemma length_fillna (v : value) (s : list value) : length (fillna v s) = length s.
Proof. apply length_map. Qed.

Lemma length_ffill_from (last : option value) (s : list value) :
  length (ffill_from last s) = length s.
Proof.
  revert last. induction s as [|v s IH]; intros last; simpl; [reflexivity |].
  destruct (isnull v); simpl; now rewrite IH.
Qed.

Lemma same_but_refl (c' : string) (d : DataFrame) : same_but c' d d.
Proof. repeat split. Qed.

Lemma same_but_set_column (d : DataFrame) (c' : string) (values : list value) :
  has_column d c' = true -> length values = len d ->
  same_but c' d (set_column d c' values).
Proof.
  intros Hc Hlen. split; [now apply df_columns_set_column |]. split.
  - unfold len, set_column in *. simpl. rewrite length_zip_with. lia.
  - intros c Hne. now apply series_set_column_ne.
Qed.

Lemma fill_column_same_but (d d' : DataFrame) (column : string) (strategy : value) :
  has_column d column = true ->
  fill_column d column strategy = Ok d' -> same_but column d d'.
Proof.
  intros Hc. unfold fill_column.
  destruct (is_string strategy "mean").
  { destruct (series_mean _); [| discriminate]. intros [= <-].
    apply same_but_set_column; [assumption |]. now rewrite length_fillna, length_series. }
  destruct (is_string strategy "mode").
  { intros [= <-].
    apply same_but_set_column; [assumption |]. now rewrite length_fillna, length_series. }
  destruct (is_string strategy "forward_fill").
  { intros [= <-]. apply same_but_set_column; [assumption |].
    unfold ffill. now rewrite length_ffill_from, length_series. }
  destruct strategy as [| | | |s]; try (intros [= <-]; apply same_but_refl).
  destruct (startswith s "custom_"); intros [= <-]; [| apply same_but_refl].
  apply same_but_set_column; [assumption |]. now rewrite length_fillna, length_series.
Qed.

(** ** Loops over the columns *)

Lemma for_each_invariant {A : Type} (P : state -> Prop) (xs : list A) (body : A -> M unit) :
  (forall x st, x ∈ xs -> P st -> P (body x st).2) ->
  forall st, P st -> P (for_each xs body st).2.
Proof.
  induction xs as [|x xs IH]; intros Hbody st HP; [assumption |].
  simpl. unfold bind.
  assert (HP' : P (body x st).2) by (apply Hbody; [left | assumption]).
  destruct (body x st) as [[[]|e] st']; simpl in *; [| assumption].
  apply IH; [| assumption]. intros y st'' Hy. apply Hbody. now right.
Qed.

Lemma column_is_write (l : ref) (c : string) (cols : list string) (st : state)
  (d d' : DataFrame) (log : list log_entry) (n : nat) :
  frames st !! l = Some d ->
  df_columns d' = cols ->
  column_is l c (series d' c) cols (mkState (<[l := d']> (frames st)) log n).
Proof.
  intros Hl Hcols. exists d'. simpl. split; [| auto].
  apply list_lookup_insert_eq. eapply lookup_lt_Some; eauto.
Qed.

Lemma complete_column_other `{Runtime} (l : ref) (c c' : string) (strategy : value)
  (s : list value) (cols : list string) (st : state) :
  c <> c' -> column_is l c s cols st ->
  column_is l c s cols (complete_column l (c', strategy) st).2.
Proof.
  intros Hne (d & Hl & Hs & Hcols). unfold complete_column, bind, read_frame.
  rewrite Hl. destruct (has_column d c') eqn:Hc'; simpl; [| now exists d].
  destruct (count_null (series d c') =? 0)%nat; simpl; [now exists d |].
  unfold lift. destruct (fill_column d c' strategy) as [d'|e] eqn:Hfill; [| now exists d].
  apply fill_column_same_but in Hfill as (Hcols' & _ & Hother); [| assumption].
  simpl. rewrite <- Hs, <- (Hother c Hne).
  eapply column_is_write; [eassumption | congruence].
Qed.

Lemma fill_column_unknown (d : DataFrame) (column : string) (strategy : value) :
  known_strategy strategy = false -> fill_column d column strategy = Ok d.
Proof.
  unfold known_strategy, fill_column. intros Hk.
  repeat (apply orb_false_elim in Hk as [Hk ?]).
  rewrite Hk.
  destruct (is_string strategy "mode"); [discriminate |].
  destruct (is_string strategy "forward_fill"); [discriminate |].
  destruct strategy; try reflexivity.
  destruct (startswith s "custom_"); [discriminate | reflexivity].
Qed.

(** On a column with missing values and a strategy it does not know, the
    body of the loop changes nothing and logs. *)
Lemma complete_column_unknown `{Runtime} (l : ref) (c : string) (strategy : value)
  (s : list value) (cols : list string) (st : state) :
  column_is l c s cols st -> c ∈ cols -> (0 < count_null s)%nat ->
  known_strategy strategy = false ->
  complete_column l (c, strategy) st
  = (Ok tt,
     mkState (frames st)
       (improvement_log st ++
          [{| log_action := "completeness";
              log_details :=
                "Colonne " +:+ c +:+ ": " +:+ pretty (count_null s) +:+
                " valeurs manquantes comblées avec stratégie '" +:+ py_str strategy +:+ "'";
              log_timestamp := clock (clock_reads st) |}])
       (S (clock_reads st))).
Proof.
  intros (d & Hl & Hs & Hcols) Hc Hnull Hk.
  unfold complete_column, bind, read_frame. rewrite Hl.
  assert (Hhas : has_column d c = true) by (apply has_column_true; congruence).
  rewrite Hhas, Hs. simpl.
  destruct (Nat.eqb_spec (count_null s) 0) as [E|_]; [lia |].
  unfold lift. rewrite fill_column_unknown by assumption.
  unfold write_frame, log_improvement. simpl.
  now rewrite list_insert_id.
Qed.

Lemma for_each_split {A : Type} (body : A -> M unit) (pre post : list A) (x : A) (st : state) :
  for_each (pre ++ x :: post) body st
  = match for_each pre body st with
    | (Ok _, st1) =>
        match body x st1 with
        | (Ok _, st2) => for_each post body st2
        | (Raise e, st2) => (Raise e, st2)
        end
    | (Raise e, st1) => (Raise e, st1)
    end.
Proof.
  rewrite for_each_app. destruct (for_each pre body st) as [[[]|e] st1]; reflexivity.
Qed.

(** An operation that copies its argument and loops on the copy. *)
Lemma copy_then_loop {A : Type} (body : ref -> A -> M unit) (xs : list A)
  (st : state) (df : ref) (d : DataFrame) :
  frames st !! df = Some d ->
  (df_improved <- frame_copy df ;; for_each xs (body df_improved) ;; ret df_improved) st
  = match for_each xs (body (length (frames st)))
            (mkState (frames st ++ [d]) (improvement_log st) (clock_reads st)) with
    | (Ok _, st') => (Ok (length (frames st)), st')
    | (Raise e, st') => (Raise e, st')
    end.
Proof.
  intros Hdf. unfold frame_copy, bind, read_frame, new_frame, ret. now rewrite Hdf.
Qed.

Lemma column_is_copy (st : state) (d : DataFrame) (c : string) :
  column_is (length (frames st)) c (series d c) (df_columns d)
    (mkState (frames st ++ [d]) (improvement_log st) (clock_reads st)).
Proof.
  exists d. simpl. split; [| auto].
  rewrite lookup_app_r by lia. now rewrite Nat.sub_diag.
Qed.

Lemma not_in_keys {A : Type} (c : string) (l : list (string * A)) (x : string * A) :
  c ∉ l.*1 -> x ∈ l -> c <> x.1.
Proof.
  intros Hc Hx ->. apply Hc. apply list_elem_of_fmap. now exists x.
Qed.

Lemma NoDup_keys_split {A : Type} (pre post : list (string * A)) (c : string) (a : A) :
  NoDup (pre ++ (c, a) :: post).*1 -> (c ∉ pre.*1) /\ (c ∉ post.*1).
Proof.
  rewrite fmap_app, fmap_cons. simpl. intros Hnd.
  apply NoDup_app in Hnd as (_ & Hpre & Hpost).
  apply NoDup_cons in Hpost as (Hpost & _).
  split; [| assumption].
  intros Hc. apply (Hpre c Hc). left.
Qed.

(** C10: when a column of the dataset has missing values and its strategy
    is not [mean], [mode], [forward_fill] or a string that starts with
    [custom_], the column of the result holds the values it held, missing
    ones included, and once every strategy is processed the log has gained
    a [completeness] entry that says the missing values of the column were
    filled with that strategy. *)
Theorem unknown_strategy_logs_without_filling `{Runtime} (st : state) (df : ref)
  (d : DataFrame) (strategies : list (string * value)) (column : string)
  (strategy : value) :
  frames st !! df = Some d ->
  NoDup strategies.*1 ->
  (column, strategy) ∈ strategies ->
  column ∈ df_columns d ->
  (0 < count_null (series d column))%nat ->
  known_strategy strategy = false ->
  (exists d',
     frames (improve_completeness df strategies st).2 !! length (frames st) = Some d'
     /\ series d' column = series d column)
  /\ forall df_improved,
       (improve_completeness df strategies st).1 = Ok df_improved ->
       df_improved = length (frames st)
       /\ exists t new,
            improvement_log (improve_completeness df strategies st).2
            = improvement_log st ++ new
            /\ {| log_action := "completeness";
                  log_details :=
                    "Colonne " +:+ column +:+ ": " +:+
                    pretty (count_null (series d column)) +:+
                    " valeurs manquantes comblées avec stratégie '" +:+
                    py_str strategy +:+ "'";
                  log_timestamp := t |} ∈ new.
Proof.
  intros Hdf Hnd Hin Hcol Hnull Hk.
  apply list_elem_of_split in Hin as (pre & post & ->).
  apply NoDup_keys_split in Hnd as (Hpre & Hpost).
  unfold improve_completeness. rewrite (copy_then_loop _ _ _ _ _ Hdf), for_each_split.
  set (l := length (frames st)).
  set (st0 := mkState (frames st ++ [d]) (improvement_log st) (clock_reads st)).
  pose proof (column_is_copy st d column) as HP0. fold l st0 in HP0.
  assert (HP1 : column_is l column (series d column) (df_columns d)
                  (for_each pre (complete_column l) st0).2).
  { apply for_each_invariant; [| assumption].
    intros [c' s'] st' Hy HP. apply complete_column_other; [| assumption].
    apply (not_in_keys _ _ _ Hpre Hy). }
  assert (HT1 : touches l st0 (for_each pre (complete_column l) st0).2)
    by (apply only_touches_for_each; auto with touches).
  destruct (for_each pre (complete_column l) st0) as [[[]|e] st1]; simpl in HP1, HT1.
  2:{ split; [| discriminate]. destruct HP1 as (d' & ? & ? & _). now exists d'. }
  rewrite (complete_column_unknown l column strategy _ _ st1 HP1 Hcol Hnull Hk).
  set (entry := mkLog "completeness" _ _).
  set (st2 := mkState (frames st1) _ _).
  assert (HP2 : column_is l column (series d column) (df_columns d) st2) by exact HP1.
  assert (HP3 : column_is l column (series d column) (df_columns d)
                  (for_each post (complete_column l) st2).2).
  { apply for_each_invariant; [| assumption].
    intros [c' s'] st' Hy HP. apply complete_column_other; [| assumption].
    apply (not_in_keys _ _ _ Hpost Hy). }
  assert (HT3 : touches l st2 (for_each post (complete_column l) st2).2)
    by (apply only_touches_for_each; auto with touches).
  destruct HT1 as (_ & _ & new1 & Hlog1). destruct HT3 as (_ & _ & new3 & Hlog3).
  assert (Hlog : improvement_log (for_each post (complete_column l) st2).2
                 = improvement_log st ++ (new1 ++ entry :: new3)).
  { rewrite Hlog3. subst st2. simpl. rewrite Hlog1. subst st0. simpl.
    now rewrite <- !app_assoc. }
  destruct (for_each post (complete_column l) st2) as [[[]|e] st3]; simpl in *.
  - split; [destruct HP3 as (d' & ? & ? & _); now exists d' |].
    intros df_improved [= <-]. split; [reflexivity |].
    exists (clock (clock_reads st1)), (new1 ++ entry :: new3). split; [assumption |].
    apply elem_of_app. right. left.
  - split; [| discriminate]. destruct HP3 as (d' & ? & ? & _). now exists d'.
Qed.

(** ** Business rules *)

(** The body of the loop returns, whatever the rule. *)
Lemma apply_rule_returns `{Runtime} (l : ref) (rule : business_rule) (st : state) :
  (apply_rule l rule st).1 = Ok tt.
Proof.
  unfold apply_rule, try_except.
  destruct (bind _ _ st) as [[[]|e] st']; reflexivity.
Qed.

Lemma for_each_apply_rule_returns `{Runtime} (l : ref) (rules : list business_rule)
  (st : state) :
  (for_each rules (apply_rule l) st).1 = Ok tt.
Proof.
  revert st. induction rules as [|rule rules IH]; intros st; [reflexivity |].
  simpl. unfold bind. pose proof (apply_rule_returns l rule st) as Hr.
  destruct (apply_rule l rule st) as [[[]|e] st']; simpl in Hr; [apply IH | discriminate].
Qed.

(** A rule whose predicate raises: the exception is caught and logged, and
    nothing else changes. *)
Lemma apply_rule_error `{Runtime} (l : ref) (rule : business_rule) (st : state)
  (d : DataFrame) (e : exn) :
  frames st !! l = Some d ->
  df_eval d (rule_condition rule) = Raise e ->
  apply_rule l rule st
  = (Ok tt,
     mkState (frames st)
       (improvement_log st ++
          [{| log_action := "business_rule_error";
              log_details :=
                "Erreur dans la règle " +:+ default "unnamed_rule" (rule_name rule) +:+
                ": " +:+ exn_str e;
              log_timestamp := clock (clock_reads st) |}])
       (S (clock_reads st))).
Proof.
  intros Hl He. unfold apply_rule, try_except, bind, read_frame, lift.
  now rewrite Hl, He.
Qed.

(** The call returns, whatever the rules. *)
Lemma apply_business_rules_returns `{Runtime} (st : state) (df : ref) (d : DataFrame)
  (business_rules : list business_rule) :
  frames st !! df = Some d ->
  (apply_business_rules df business_rules st).1 = Ok (length (frames st)).
Proof.
  intros Hdf. unfold apply_business_rules. rewrite (copy_then_loop _ _ _ _ _ Hdf).
  pose proof (for_each_apply_rule_returns (length (frames st)) business_rules
                (mkState (frames st ++ [d]) (improvement_log st) (clock_reads st))) as Hr.
  destruct (for_each _ _ _) as [[[]|e] st']; simpl in Hr; [reflexivity | discriminate].
Qed.

(** C6: the call returns a dataset whatever the rules are; and when the
    predicate of a rule raises on the dataset as the rules before it left
    it, an entry of category [business_rule_error] that names the rule and
    the failure is appended to the log, the dataset is left as it was, and
    the rules after it are processed from there, in order. *)
Theorem apply_business_rules_recovers `{Runtime} (st : state) (df : ref) (d : DataFrame)
  (before after : list business_rule) (rule : business_rule) (d1 : DataFrame) (e : exn) :
  frames st !! df = Some d ->
  let l := length (frames st) in
  let st1 :=
    (for_each before (apply_rule l)
       (mkState (frames st ++ [d]) (improvement_log st) (clock_reads st))).2 in
  frames st1 !! l = Some d1 ->
  df_eval d1 (rule_condition rule) = Raise e ->
  apply_business_rules df (before ++ rule :: after) st
  = (Ok l,
     (for_each after (apply_rule l)
        (mkState (frames st1)
           (improvement_log st1 ++
              [{| log_action := "business_rule_error";
                  log_details :=
                    "Erreur dans la règle " +:+
                    default "unnamed_rule" (rule_name rule) +:+ ": " +:+ exn_str e;
                  log_timestamp := clock (clock_reads st1) |}])
           (S (clock_reads st1)))).2).
Proof.
  intros Hdf l st1 Hl He.
  unfold apply_business_rules. rewrite (copy_then_loop _ _ _ _ _ Hdf), for_each_split.
  fold l. subst st1.
  pose proof (for_each_apply_rule_returns l before
                (mkState (frames st ++ [d]) (improvement_log st) (clock_reads st))) as Hr.
  destruct (for_each before _ _) as [[[]|e0] st1]; simpl in *; [| discriminate].
  rewrite (apply_rule_error l rule st1 d1 e Hl He).
  match goal with |- context [for_each after ?b ?s] =>
    pose proof (for_each_apply_rule_returns l after s) as Hr';
    destruct (for_each after b s) as [[[]|e1] st3] end;
    simpl in *; [reflexivity | discriminate].
Qed.

(** ** Removal of duplicates *)

Section first_occurrences.
Context {A : Type} (f : A -> list key).

Lemma drop_marked_sublist (mask : list bool) (l : list A) :
  sublist (drop_marked mask l) l.
Proof.
  revert l. induction mask as [|m mask IH]; intros [|x l]; simpl;
    try apply sublist_nil_l.
  destruct m; [apply sublist_cons | apply sublist_skip]; apply IH.
Qed.

(** A row is marked when its key was seen before the first row or is the
    key of an earlier row. *)
Lemma mark_seen_lookup (seen ks : list (list key)) (i : nat) (k : list key) :
  ks !! i = Some k ->
  mark_seen seen ks !! i = Some true
  <-> k ∈ seen \/ exists j, (j < i)%nat /\ ks !! j = Some k.
Proof.
  revert seen i. induction ks as [|k0 ks IH]; intros seen i Hi; [discriminate |].
  destruct i as [|i]; simpl in *.
  - injection Hi as ->. split.
    + intros [= Hk]. left. now apply bool_decide_eq_true in Hk.
    + intros [Hk | (j & Hj & _)]; [| lia]. f_equal. now apply bool_decide_eq_true.
  - rewrite (IH (k0 :: seen) i Hi). split.
    + intros [Hk | (j & Hj & Hk)].
      * apply elem_of_cons in Hk as [-> | Hk]; [| now left].
        right. exists 0%nat. split; [lia | reflexivity].
      * right. exists (S j). split; [lia | assumption].
    + intros [Hk | (j & Hj & Hk)].
      * left. now right.
      * destruct j as [|j]; simpl in Hk.
        -- injection Hk as ->. left. left.
        -- right. exists j. split; [lia | assumption].
Qed.

(** The rows that are kept have distinct keys, none of them seen before. *)
Lemma kept_keys_distinct (seen : list (list key)) (l : list A) :
  NoDup (f <$> drop_marked (mark_seen seen (f <$> l)) l)
  /\ forall x, x ∈ drop_marked (mark_seen seen (f <$> l)) l -> f x ∉ seen.
Proof.
  revert seen. induction l as [|x l IH]; intros seen; simpl.
  - split; [constructor | intros x Hx; inversion Hx].
  - destruct (IH (f x :: seen)) as (Hnd & Hseen).
    destruct (bool_decide_reflect (f x ∈ seen)) as [Hin | Hnin].
    { split; [assumption |]. intros y Hy Hy'. apply (Hseen y Hy). now right. }
    split.
    + rewrite fmap_cons. constructor; [| assumption].
      intros Hx. apply list_elem_of_fmap in Hx as (y & Hy & Hyin).
      apply (Hseen y Hyin). rewrite <- Hy. left.
    + intros y Hy. apply elem_of_cons in Hy as [-> | Hy]; [assumption |].
      intros Hin. apply (Hseen y Hy). now right.
Qed.

(** Rows of distinct keys, none of them seen before, are all kept. *)
Lemma distinct_keys_kept (seen : list (list key)) (l : list A) :
  NoDup (f <$> l) -> (forall x, x ∈ l -> f x ∉ seen) ->
  drop_marked (mark_seen seen (f <$> l)) l = l.
Proof.
  revert seen. induction l as [|x l IH]; intros seen Hnd Hseen; [reflexivity |].
  simpl. rewrite fmap_cons in Hnd. apply NoDup_cons in Hnd as (Hx & Hnd).
  rewrite bool_decide_eq_false_2 by (apply Hseen; left).
  f_equal. apply IH; [assumption |].
  intros y Hy Hin. apply elem_of_cons in Hin as [E | Hin].
  - apply Hx. rewrite <- E. apply list_elem_of_fmap. now exists y.
  - apply (Hseen y); [now right | assumption].
Qed.

Lemma first_occurrences_idempotent (l : list A) :
  let kept := drop_marked (mark_seen [] (f <$> l)) l in
  drop_marked (mark_seen [] (f <$> kept)) kept = kept.
Proof.
  intros kept. apply distinct_keys_kept.
  - apply kept_keys_distinct.
  - intros x _ Hx. inversion Hx.
Qed.

Lemma first_row_kept (x : A) (l : list A) :
  drop_marked (mark_seen [] (f <$> x :: l)) (x :: l) <> [].
Proof. simpl. discriminate. Qed.

End first_occurrences.

Lemma map_fmap {A B : Type} (f : A -> B) (l : list A) : map f l = f <$> l.
Proof. reflexivity. Qed.

Lemma drop_duplicates_first (d : DataFrame) (subset : option (list string)) :
  has_columns_or_no_rows d -> valid_subset d subset ->
  drop_duplicates d subset KeepFirst
  = Ok (mkDataFrame (df_columns d)
          (drop_marked (mark_seen [] (key_under d subset <$> df_rows d)) (df_rows d))).
Proof.
  intros Hwf Hsub. unfold drop_duplicates, duplicated.
  destruct (df_empty d) eqn:Hempty.
  - assert (Hrows : df_rows d = []).
    { destruct Hwf as [Hcols | Hrows]; [| assumption].
      unfold df_empty in Hempty. destruct (df_rows d); [reflexivity |].
      now destruct (df_columns d). }
    destruct d as [cols rows]. simpl in *. now subst rows.
  - assert (Hcols : df_columns d <> []).
    { unfold df_empty in Hempty. destruct (df_rows d); [discriminate |].
      now destruct (df_columns d). }
    unfold key_under. rewrite filter_missing_nil.
    + destruct (default (df_columns d) subset) as [|c cs] eqn:Hkeys; [| reflexivity].
      destruct subset as [l|]; simpl in *; [now destruct Hsub | contradiction].
    + destruct subset as [l|]; simpl in *; [apply Hsub | auto].
Qed.

Lemma remove_duplicates_run `{Runtime} (st : state) (df : ref) (d d' : DataFrame)
  (subset : option (list string)) (keep : keep_policy) :
  frames st !! df = Some d ->
  drop_duplicates d subset keep = Ok d' ->
  exists st',
    remove_duplicates df subset keep st = (Ok (length (frames st)), st')
    /\ frames st' = frames st ++ [d'].
Proof.
  intros Hdf Hdrop. unfold remove_duplicates, bind, read_frame, lift, new_frame.
  rewrite Hdf, Hdrop. destruct (0 <? _)%Z; eexists; split; reflexivity.
Qed.

Lemma key_of_Q_inj (p q : Q) : key_of_Q p = key_of_Q q <-> (p == q)%Q.
Proof.
  unfold key_of_Q. split.
  - intros [= Hn Hd]. rewrite <- (Qred_correct p), <- (Qred_correct q).
    destruct (Qred p), (Qred q). simpl in *. now subst.
  - intros E. now rewrite (Qred_complete p q E).
Qed.

Ltac same_value_cases :=
  match goal with
  | |- key_of_Q _ = key_of_Q _ <-> _ => apply key_of_Q_inj
  | |- KStr _ = KStr _ <-> _ => split; [now intros [= ->] | now intros ->]
  | |- _ => split; [discriminate || (intros _; exact I) || (intros _; reflexivity)
                   | discriminate || contradiction || reflexivity]
  end.

(** The table of a column tells two values apart as [same_value] does. *)
Lemma value_key_same (a b : value) : value_key a = value_key b <-> same_value false a b.
Proof.
  destruct a as [|[]|?|[]|?], b as [|[]|?|[]|?]; cbn; same_value_cases.
Qed.

Lemma factorize_key_same (a b : value) :
  factorize_key a = factorize_key b <-> same_value true a b.
Proof.
  destruct a as [|[]|?|[]|?], b as [|[]|?|[]|?]; cbn; same_value_cases.
Qed.

Lemma row_key_same (l : list string) (r r' : row) :
  row_key l r = row_key l r'
  <-> forall c, c ∈ l -> same_value (several_columns l) (cell r c) (cell r' c).
Proof.
  assert (Hmap : map (fun c => factorize_key (cell r c)) l
                 = map (fun c => factorize_key (cell r' c)) l
                 <-> forall c, c ∈ l -> same_value true (cell r c) (cell r' c)).
  { rewrite map_ext_in_iff. split; intros Hl c Hc.
    - apply factorize_key_same, Hl. now apply list_elem_of_In.
    - apply factorize_key_same, Hl. now apply list_elem_of_In. }
  destruct l as [|c [|c' l]]; [exact Hmap | | exact Hmap].
  unfold row_key, several_columns. simpl. split.
  - intros [= Hk] c0 Hc0. apply list_elem_of_In in Hc0 as [<- | []].
    now apply value_key_same.
  - intros Hl. f_equal. apply value_key_same, Hl. left.
Qed.

Lemma key_under_same (d : DataFrame) (subset : option (list string)) (r r' : row) :
  key_under d subset r = key_under d subset r' <-> same_on_key d subset r r'.
Proof. apply row_key_same. Qed.

Lemma NoDup_keys_no_two_match (d : DataFrame) (subset : option (list string))
  (rows : list row) :
  NoDup (key_under d subset <$> rows) <-> no_two_match d subset rows.
Proof.
  rewrite NoDup_alt. split.
  - intros Hnd i j r r' Hij Hi Hj Hsame. apply key_under_same in Hsame.
    assert (E : i = j); [| lia].
    apply (Hnd i j (key_under d subset r)); rewrite list_lookup_fmap.
    + now rewrite Hi.
    + now rewrite Hj, Hsame.
  - intros Hnm i j k Hi Hj. rewrite list_lookup_fmap in Hi, Hj.
    destruct (rows !! i) as [r|] eqn:Hr; [| discriminate].
    destruct (rows !! j) as [r'|] eqn:Hr'; [| discriminate].
    injection Hi as Hi. injection Hj as Hj.
    destruct (Nat.lt_trichotomy i j) as [Hlt | [E | Hlt]]; [| exact E |]; exfalso.
    + apply (Hnm i j r r' Hlt Hr Hr'), key_under_same. congruence.
    + apply (Hnm j i r' r Hlt Hr' Hr), key_under_same. congruence.
Qed.

(** C7: with [keep='first'], on a dataset that has a column or no row and
    for key columns that [drop_duplicates] accepts, the result holds the
    rows of the dataset that no earlier row matches on the key columns, in
    their original order; no two of them match; nothing is removed when no
    two rows match; and removing the duplicates of the result gives the
    result again. *)
Theorem remove_duplicates_first_occurrence `{Runtime} (st : state) (df : ref)
  (d : DataFrame) (subset : option (list string)) :
  frames st !! df = Some d ->
  has_columns_or_no_rows d ->
  valid_subset d subset ->
  exists d' st' mask,
    remove_duplicates df subset KeepFirst st = (Ok (length (frames st)), st')
    /\ frames st' !! length (frames st) = Some d'
    /\ df_columns d' = df_columns d
    /\ length mask = len d
    /\ df_rows d' = drop_marked mask (df_rows d)
    /\ (forall i r, df_rows d !! i = Some r ->
          mask !! i = Some true
          <-> exists j r', (j < i)%nat /\ df_rows d !! j = Some r'
                           /\ same_on_key d subset r' r)
    /\ sublist (df_rows d') (df_rows d)
    /\ no_two_match d subset (df_rows d')
    /\ (no_two_match d subset (df_rows d) -> d' = d)
    /\ exists st'',
         remove_duplicates (length (frames st)) subset KeepFirst st'
         = (Ok (S (length (frames st))), st'')
         /\ frames st'' !! S (length (frames st)) = Some d'.
Proof.
  intros Hdf Hwf Hsub.
  set (keyf := key_under d subset).
  set (kept := drop_marked (mark_seen [] (keyf <$> df_rows d)) (df_rows d)).
  pose proof (drop_duplicates_first d subset Hwf Hsub) as Hdrop. fold keyf kept in Hdrop.
  destruct (remove_duplicates_run st df d (mkDataFrame (df_columns d) kept) subset KeepFirst
              Hdf Hdrop) as (st' & Hrun & Hframes).
  assert (Hnew : frames st' !! length (frames st) = Some (mkDataFrame (df_columns d) kept)).
  { rewrite Hframes, lookup_app_r by lia. now rewrite Nat.sub_diag. }
  exists (mkDataFrame (df_columns d) kept), st', (mark_seen [] (keyf <$> df_rows d)).
  split; [exact Hrun |]. split; [exact Hnew |]. split; [reflexivity |].
  split; [unfold len; now rewrite length_mark_seen, length_fmap |].
  split; [reflexivity |]. split.
  { intros i r Hi.
    assert (Hk : (keyf <$> df_rows d) !! i = Some (keyf r))
      by now rewrite list_lookup_fmap, Hi.
    rewrite (mark_seen_lookup [] _ i _ Hk). split.
    - intros [Hin | (j & Hj & Hkj)]; [inversion Hin |].
      rewrite list_lookup_fmap in Hkj.
      destruct (df_rows d !! j) as [r'|] eqn:Hr'; [| discriminate].
      injection Hkj as Hkj. exists j, r'. now rewrite <- key_under_same.
    - intros (j & r' & Hj & Hr' & Hkj). right. exists j. split; [assumption |].
      apply key_under_same in Hkj. fold keyf in Hkj.
      now rewrite list_lookup_fmap, Hr', <- Hkj. }
  split; [apply drop_marked_sublist |].
  split; [apply NoDup_keys_no_two_match, kept_keys_distinct |]. split.
  { intros Hnd. apply NoDup_keys_no_two_match in Hnd.
    destruct d as [cols rows]. simpl in *. f_equal.
    apply distinct_keys_kept; [assumption |]. intros x _ Hx. inversion Hx. }
  assert (Hwf' : has_columns_or_no_rows (mkDataFrame (df_columns d) kept)).
  { destruct Hwf as [Hcols | Hrows]; [now left | right].
    simpl. subst kept. now rewrite Hrows. }
  pose proof (drop_duplicates_first (mkDataFrame (df_columns d) kept) subset Hwf' Hsub)
    as Hdrop'.
  change (key_under (mkDataFrame (df_columns d) kept) subset) with keyf in Hdrop'.
  simpl in Hdrop'. subst kept.
  rewrite (first_occurrences_idempotent keyf (df_rows d)) in Hdrop'.
  destruct (remove_duplicates_run st' (length (frames st)) _ _ subset KeepFirst
              Hnew Hdrop') as (st'' & Hrun' & Hframes').
  exists st''. rewrite Hframes, length_app, Nat.add_1_r in Hrun'.
  split; [exact Hrun' |].
  rewrite Hframes', lookup_app_r by (rewrite Hframes, length_app; simpl; lia).
  rewrite Hframes, length_app. simpl.
  now replace (S (length (frames st)) - (length (frames st) + 1))%nat with 0%nat by lia.
Qed.

(** C7, counterexample: a key column that the dataset does not have is a
    [KeyError], and no dataset is returned; a dataset with rows and no
    column is returned whole, its two rows matching each other. *)
Lemma remove_duplicates_without_key_columns :
  (exists msg st', remove_duplicates 0 (Some ["Age"]) KeepFirst (fresh_improver [names])
                   = (Raise (KeyError msg), st'))
  /\ (exists st', remove_duplicates 0 None KeepFirst (fresh_improver [no_columns])
                  = (Ok 1%nat, st')
                  /\ frames st' !! 1%nat = Some no_columns
                  /\ df_rows no_columns = [∅; ∅]
                  /\ same_on_key no_columns None ∅ ∅).
Proof.
  split.
  - eexists _, _. reflexivity.
  - exists (mkState [no_columns; no_columns] [] 0). split; [reflexivity |].
    split; [reflexivity |]. split; [reflexivity |].
    intros c Hc. inversion Hc.
Qed.

(** In one key column [None] and [nan] are two values; next to a second key
    column they are one. *)
Lemma none_is_not_nan_in_one_key_column :
  (exists st', remove_duplicates 0 None KeepFirst (fresh_improver [missing_twice])
               = (Ok 1%nat, st')
               /\ frames st' !! 1%nat
                  = Some (one_column "a" [VNone; VFloat NaN; VStr "a"]))
  /\ (exists st', remove_duplicates 0 None KeepFirst (fresh_improver [missing_twice_of_two])
                  = (Ok 1%nat, st')
                  /\ option_map len (frames st' !! 1%nat) = Some 2%nat).
Proof.
  split; eexists; split; vm_compute; reflexivity.
Qed.

(** ** Formats and codes *)

(** A loop whose body works on the column it is given: the effect on the
    column [c] of the whole loop is the one of the entry for [c]. *)
Lemma loop_on_column {A : Type} (body : string * A -> M unit) (l : ref) (c : string)
  (a : A) (pre post : list (string * A)) (s s' : list value) (cols : list string)
  (st : state) :
  (forall c' a' s cols st, c <> c' ->
     column_is l c s cols st -> column_is l c s cols (body (c', a') st).2) ->
  (forall st, column_is l c s cols st -> (body (c, a) st).1 = Ok tt ->
     column_is l c s' cols (body (c, a) st).2) ->
  c ∉ pre.*1 -> c ∉ post.*1 ->
  column_is l c s cols st ->
  (for_each (pre ++ (c, a) :: post) body st).1 = Ok tt ->
  column_is l c s' cols (for_each (pre ++ (c, a) :: post) body st).2.
Proof.
  intros Hother Hown Hpre Hpost HP. rewrite for_each_split.
  assert (HP1 : column_is l c s cols (for_each pre body st).2).
  { apply for_each_invariant; [| assumption].
    intros [c' a'] st' Hy. apply Hother. apply (not_in_keys _ _ _ Hpre Hy). }
  destruct (for_each pre body st) as [[[]|e] st1]; simpl in *; [| discriminate].
  specialize (Hown st1 HP1).
  destruct (body (c, a) st1) as [[[]|e] st2]; simpl in *; [| discriminate].
  intros _. apply for_each_invariant; [| now apply Hown].
  intros [c' a'] st' Hy. apply Hother. apply (not_in_keys _ _ _ Hpost Hy).
Qed.

Lemma length_replace_codes `{Runtime} (mapping : gmap string string) (s : list value) :
  length (replace_codes mapping s) = length s.
Proof. apply length_map. Qed.

Lemma normalize_column_other `{Runtime} (l : ref) (c c' : string)
  (mapping : gmap string string) (s : list value) (cols : list string) (st : state) :
  c <> c' -> column_is l c s cols st ->
  column_is l c s cols (normalize_column l (c', mapping) st).2.
Proof.
  intros Hne (d & Hl & Hs & Hcols). unfold normalize_column, bind, read_frame.
  rewrite Hl. destruct (has_column d c') eqn:Hc'; simpl; [| now exists d].
  unfold write_frame. simpl.
  assert (Hsame : same_but c' d (set_column d c' (replace_codes mapping (series d c')))).
  { apply same_but_set_column; [assumption |].
    now rewrite length_replace_codes, length_series. }
  destruct Hsame as (Hcols' & _ & Hother).
  rewrite <- Hs, <- (Hother c Hne).
  destruct (unmapped_values _ _); simpl;
    (eapply column_is_write; [eassumption | congruence]).
Qed.

Lemma normalize_column_own `{Runtime} (l : ref) (c : string)
  (mapping : gmap string string) (s : list value) (cols : list string) (st : state) :
  c ∈ cols -> column_is l c s cols st ->
  column_is l c (replace_codes mapping s) cols (normalize_column l (c, mapping) st).2.
Proof.
  intros Hc (d & Hl & Hs & Hcols). unfold normalize_column, bind, read_frame.
  rewrite Hl.
  assert (Hhas : has_column d c = true) by (apply has_column_true; congruence).
  rewrite Hhas. simpl. unfold write_frame. simpl.
  destruct (unmapped_values _ _); simpl;
    (exists (set_column d c (replace_codes mapping (series d c))); cbn [frames];
     split; [apply list_lookup_insert_eq; eapply lookup_lt_Some; eauto |];
     split; [| now rewrite df_columns_set_column];
     rewrite series_set_column by (now rewrite length_replace_codes, length_series);
     now rewrite Hs).
Qed.

(** The loop of [normalize_codification] returns. *)
Lemma normalize_loop_returns `{Runtime} (l : ref)
  (rules : list (string * gmap string string)) (st : state) :
  is_Some (frames st !! l) ->
  (for_each rules (normalize_column l) st).1 = Ok tt.
Proof.
  revert st. induction rules as [|[c mapping] rules IH]; intros st Hl; [reflexivity |].
  cbn [for_each]. unfold bind.
  pose proof (only_touches_normalize_column l (c, mapping) st) as (Hlen & _).
  assert (Hok : (normalize_column l (c, mapping) st).1 = Ok tt).
  { destruct Hl as (d & Hl). unfold normalize_column, bind, read_frame. rewrite Hl.
    destruct (negb _); [reflexivity |]. simpl.
    destruct (unmapped_values _ _); reflexivity. }
  destruct (normalize_column l (c, mapping) st) as [[[]|e] st'];
    cbn [fst snd] in Hok, Hlen; [| discriminate].
  apply IH. apply lookup_lt_is_Some. rewrite Hlen. now apply lookup_lt_is_Some.
Qed.

(** C4, as amended: [normalize_codification] returns, and in a configured
    column of the result every value whose string form is a key of the
    mapping of the column has been replaced by the string it maps to, and
    every other value by its string form. *)
Theorem normalize_codification_replaces `{Runtime} (st : state) (df : ref)
  (d : DataFrame) (codification_rules : list (string * gmap string string))
  (column : string) (mapping : gmap string string) :
  frames st !! df = Some d ->
  NoDup codification_rules.*1 ->
  (column, mapping) ∈ codification_rules ->
  column ∈ df_columns d ->
  exists d' st',
    normalize_codification df codification_rules st = (Ok (length (frames st)), st')
    /\ frames st' !! length (frames st) = Some d'
    /\ length (series d' column) = length (series d column)
    /\ forall i v, series d column !! i = Some v ->
         (forall new, mapping !! py_str v = Some new ->
            series d' column !! i = Some (VStr new))
         /\ (mapping !! py_str v = None ->
             series d' column !! i = Some (VStr (py_str v))).
Proof.
  intros Hdf Hnd Hin Hcol.
  apply list_elem_of_split in Hin as (pre & post & ->).
  apply NoDup_keys_split in Hnd as (Hpre & Hpost).
  unfold normalize_codification. rewrite (copy_then_loop _ _ _ _ _ Hdf).
  set (l := length (frames st)).
  set (st0 := mkState (frames st ++ [d]) (improvement_log st) (clock_reads st)).
  pose proof (column_is_copy st d column) as HP0. fold l st0 in HP0.
  assert (Hok : (for_each (pre ++ (column, mapping) :: post) (normalize_column l) st0).1
                = Ok tt).
  { apply normalize_loop_returns. destruct HP0 as (d0 & Hd0 & _). now exists d0. }
  pose proof (loop_on_column (normalize_column l) l column mapping pre post
                (series d column) (replace_codes mapping (series d column))
                (df_columns d) st0) as Hloop.
  destruct (for_each _ _ st0) as [[[]|e] st']; simpl in Hok; [| discriminate].
  destruct Hloop as (d' & Hd' & Hs & _); try assumption; try reflexivity.
  { intros. now apply normalize_column_other. }
  { intros. now apply normalize_column_own. }
  simpl in Hd'. exists d', st'. split; [reflexivity |]. split; [assumption |].
  rewrite Hs. split; [apply length_replace_codes |].
  intros i v Hi. unfold replace_codes. rewrite map_fmap, list_lookup_fmap, Hi. simpl.
  split; [intros new -> | intros ->]; reflexivity.
Qed.

(** C4, counterexample: the missing code of scenario A is the string
    "None" after the codes are normalized; and with a mapping that
    exchanges "1" and "2" the key "1" is still in the column. *)
Lemma normalize_codification_stringifies_missing :
  series scenario_A "CSP" !! 3%nat = Some VNone
  /\ result_series
       (normalize_codification 0 [("CSP", csp_mapping)] (fresh_improver [scenario_A]))
       "CSP" !! 3%nat = Some (VStr "None")
  /\ isnull (VStr "None") = false
  /\ swap_mapping !! "1" = Some "2"
  /\ VStr "1" ∈ result_series
       (normalize_codification 0 [("CSP", swap_mapping)] (fresh_improver [scenario_A]))
       "CSP".
Proof.
  repeat split; try (vm_compute; reflexivity).
  apply list_elem_of_lookup. exists 1%nat. vm_compute. reflexivity.
Qed.

(** C5, counterexample: under [title_case] the missing name becomes the
    string "None". *)
Lemma standardize_format_stringifies_missing :
  series names "Nom" = [VStr "durand"; VNone]
  /\ result_series
       (standardize_format 0 [("Nom", RuleStr "title_case")] (fresh_improver [names]))
       "Nom" = [VStr "Durand"; VStr "None"]
  /\ isnull VNone = true
  /\ isnull (VStr "None") = false.
Proof. repeat split; vm_compute; reflexivity. Qed.

Lemma length_astype_str_then `{Runtime} (f : string -> string) (s : list value) :
  length (astype_str_then f s) = length s.
Proof. apply length_map. Qed.

Lemma length_to_numeric_series `{Runtime} (s : list value) :
  length (to_numeric_series s) = length s.
Proof.
  unfold to_numeric_series. destruct (forallb _ _); now rewrite !length_map.
Qed.

Lemma format_column_same_but `{Runtime} (d d' : DataFrame) (column : string)
  (rule : format_rule) :
  has_column d column = true ->
  format_column d column rule = Ok d' -> same_but column d d'.
Proof.
  intros Hc. unfold format_column.
  assert (Htext : forall f,
            same_but column d (set_column d column (astype_str_then f (series d column)))).
  { intros f. apply same_but_set_column; [assumption |].
    now rewrite length_astype_str_then, length_series. }
  destruct rule as [r|r].
  - repeat (match goal with |- context [String.eqb r ?t] => destruct (String.eqb r t) end;
            [intros [= <-]; first [apply Htext | apply same_but_set_column; [assumption |];
               now rewrite length_to_numeric_series, length_series] |]).
    intros [= <-]. apply same_but_refl.
  - destruct (dict_get r "regex"); [| intros [= <-]; apply same_but_refl].
    destruct (regex_sub _ _); [| discriminate]. intros [= <-]. apply Htext.
Qed.

Lemma standardize_column_other `{Runtime} (l : ref) (c c' : string) (rule : format_rule)
  (s : list value) (cols : list string) (st : state) :
  c <> c' -> column_is l c s cols st ->
  column_is l c s cols (standardize_column l (c', rule) st).2.
Proof.
  intros Hne (d & Hl & Hs & Hcols). unfold standardize_column, bind, read_frame.
  rewrite Hl. destruct (has_column d c') eqn:Hc'; simpl; [| now exists d].
  unfold lift. destruct (format_column d c' rule) as [d'|e] eqn:Hf; [| now exists d].
  apply format_column_same_but in Hf as (Hcols' & _ & Hother); [| assumption].
  simpl. rewrite <- Hs, <- (Hother c Hne).
  eapply column_is_write; [eassumption | congruence].
Qed.

(** The entry of the column itself, for a rule that assigns [g] of the
    column to the column. *)
Lemma standardize_column_own `{Runtime} (l : ref) (c : string) (rule : format_rule)
  (g : list value -> list value) (s : list value) (cols : list string) (st : state) :
  (forall d, format_column d c rule = Ok (set_column d c (g (series d c)))) ->
  (forall s, length (g s) = length s) ->
  c ∈ cols -> column_is l c s cols st ->
  column_is l c (g s) cols (standardize_column l (c, rule) st).2.
Proof.
  intros Hrule Hlen Hc (d & Hl & Hs & Hcols). unfold standardize_column, bind, read_frame.
  rewrite Hl.
  assert (Hhas : has_column d c = true) by (apply has_column_true; congruence).
  rewrite Hhas. simpl. unfold lift. rewrite Hrule. simpl.
  exists (set_column d c (g (series d c))). cbn [frames].
  split; [apply list_lookup_insert_eq; eapply lookup_lt_Some; eauto |].
  split; [| now rewrite df_columns_set_column].
  rewrite series_set_column by (now rewrite Hlen, length_series).
  now rewrite Hs.
Qed.

Lemma format_column_text `{Runtime} (d : DataFrame) (c : string) (rule : format_rule)
  (f : string -> string) :
  text_rule rule = Some f ->
  format_column d c rule = Ok (set_column d c (astype_str_then f (series d c))).
Proof.
  unfold text_rule, format_column. destruct rule as [r|r].
  - destruct (String.eqb r "title_case"); [now intros [= <-] |].
    destruct (String.eqb r "upper_case"); [now intros [= <-] |].
    destruct (String.eqb r "lower_case"); [now intros [= <-] |].
    destruct (String.eqb_spec r "numeric") as [-> | _]; [discriminate |].
    destruct (String.eqb r "clean_spaces"); [now intros [= <-] | discriminate].
  - destruct (dict_get r "regex"); [| discriminate]. now intros ->.
Qed.

Lemma format_column_numeric `{Runtime} (d : DataFrame) (c : string) :
  format_column d c (RuleStr "numeric")
  = Ok (set_column d c (to_numeric_series (series d c))).
Proof. reflexivity. Qed.

(** What [pd.to_numeric] makes of a missing value and of a string that is
    not a number. *)
Lemma to_numeric_series_lookup `{Runtime} (s : list value) (i : nat) (v : value) :
  s !! i = Some v ->
  exists v',
    to_numeric_series s !! i = Some v'
    /\ (isnull v = true -> isnull v' = true)
    /\ (forall t, v = VStr t -> isnan (float_of (parse_number t)) = true ->
          isnull v' = true).
Proof.
  intros Hi. unfold to_numeric_series.
  assert (Hnan : isnan (float_of (to_numeric v)) = true ->
            forallb (fun n => match n with NInt _ => true | NFloat _ => false end)
              (map to_numeric s) = false).
  { intros Hv. apply not_true_is_false. intros Hall.
    rewrite forallb_forall in Hall.
    specialize (Hall (to_numeric v)).
    rewrite <- list_elem_of_In in Hall.
    destruct (to_numeric v) as [z|x] eqn:E; [discriminate Hv |].
    discriminate Hall. rewrite map_fmap. apply list_elem_of_fmap. exists v.
    split; [now rewrite E |]. eapply list_elem_of_lookup_2; eauto. }
  destruct (forallb _ _) eqn:Hall.
  - exists (number_value (to_numeric v)).
    rewrite !map_fmap, !list_lookup_fmap, Hi. split; [reflexivity |]. split.
    + intros Hnull. assert (E : true = false); [apply Hnan | discriminate E].
      destruct v as [| | |[]|]; try discriminate Hnull; reflexivity.
    + intros t -> Ht. assert (E : true = false) by (apply Hnan; exact Ht).
      discriminate E.
  - exists (VFloat (float_of (to_numeric v))).
    rewrite !map_fmap, !list_lookup_fmap, Hi. split; [reflexivity |]. split.
    + intros Hnull. destruct v as [| | |[]|]; try discriminate Hnull; reflexivity.
    + intros t -> Ht. simpl in *. now destruct (float_of (parse_number t)).
Qed.

(** C5, as amended: in a configured column of the dataset that
    [standardize_format] returns, the rules [title_case], [upper_case],
    [lower_case], [clean_spaces] and the substitution of a pattern have
    replaced every value, missing or not, by the transform of its string
    form, a string; the rule [numeric] has left the missing values missing
    and has made missing the strings that are not numbers. *)
Theorem standardize_format_converts `{Runtime} (st st' : state) (df df_improved : ref)
  (d : DataFrame) (format_rules : list (string * format_rule))
  (column : string) (rule : format_rule) :
  frames st !! df = Some d ->
  NoDup format_rules.*1 ->
  (column, rule) ∈ format_rules ->
  column ∈ df_columns d ->
  standardize_format df format_rules st = (Ok df_improved, st') ->
  exists d',
    frames st' !! df_improved = Some d'
    /\ (forall f, text_rule rule = Some f ->
          forall i v, series d column !! i = Some v ->
            series d' column !! i = Some (VStr (f (py_str v))))
    /\ (rule = RuleStr "numeric" ->
          forall i v, series d column !! i = Some v ->
            exists v',
              series d' column !! i = Some v'
              /\ (isnull v = true -> isnull v' = true)
              /\ (forall t, v = VStr t -> isnan (float_of (parse_number t)) = true ->
                    isnull v' = true)).
Proof.
  intros Hdf Hnd Hin Hcol.
  apply list_elem_of_split in Hin as (pre & post & ->).
  apply NoDup_keys_split in Hnd as (Hpre & Hpost).
  unfold standardize_format. rewrite (copy_then_loop _ _ _ _ _ Hdf).
  set (l := length (frames st)).
  set (st0 := mkState (frames st ++ [d]) (improvement_log st) (clock_reads st)).
  pose proof (column_is_copy st d column) as HP0. fold l st0 in HP0.
  pose proof (fun (g : unit) s' => loop_on_column (standardize_column l) l column rule pre post
                (series d column) s' (df_columns d) st0
                (fun c' a' s cols st Hne => standardize_column_other l column c' a' s cols st Hne))
    as Hloop.
  destruct (for_each _ _ st0) as [[[]|e] st1] eqn:Hrun; [| discriminate].
  intros [= <- <-].
  assert (Hsome : is_Some (frames st1 !! l)).
  { pose proof (only_touches_for_each l (pre ++ (column, rule) :: post)
                  (standardize_column l) (only_touches_standardize_column l) st0)
      as (Hlen & _).
    rewrite Hrun in Hlen. cbn [snd] in Hlen. apply lookup_lt_is_Some. rewrite Hlen.
    destruct HP0 as (d0 & Hd0 & _). eapply lookup_lt_Some; eauto. }
  destruct Hsome as (d' & Hd'). exists d'. split; [assumption |]. split.
  - intros f Hf i v Hi.
    destruct (Hloop tt (astype_str_then f (series d column))) as (d'' & Hd'' & Hs & _);
      try assumption; try reflexivity.
    { intros st2 HP _.
      apply (standardize_column_own l column rule (astype_str_then f)); try assumption.
      - intros d2. now apply format_column_text.
      - apply length_astype_str_then. }
    cbn [snd] in Hd''. rewrite Hd' in Hd''. injection Hd'' as <-.
    rewrite Hs. unfold astype_str_then. now rewrite map_fmap, list_lookup_fmap, Hi.
  - intros -> i v Hi.
    destruct (Hloop tt (to_numeric_series (series d column))) as (d'' & Hd'' & Hs & _);
      try assumption; try reflexivity.
    { intros st2 HP _.
      apply (standardize_column_own l column (RuleStr "numeric") to_numeric_series);
        try assumption.
      - intros d2. apply format_column_numeric.
      - apply length_to_numeric_series. }
    cbn [snd] in Hd''. rewrite Hd' in Hd''. injection Hd'' as <-.
    rewrite Hs. now apply to_numeric_series_lookup.
Qed.

(** ** The theorems at concrete inputs *)

(** C9 at a concrete input. *)
Lemma improver_operations_frame_witness :
  frames (fresh_improver [scenario_A]) !! 0%nat = Some scenario_A
  /\ (forall strategies,
        frame_condition (fresh_improver [scenario_A])
          (improve_completeness 0 strategies (fresh_improver [scenario_A]))
        /\ frames (improve_completeness 0 strategies (fresh_improver [scenario_A])).2
             !! 0%nat = Some scenario_A).
Proof.
  split; [reflexivity |].
  apply (improver_operations_frame (fresh_improver [scenario_A]) 0 scenario_A).
  reflexivity.
Defined.

(** C6 at a concrete input. *)
Lemma apply_business_rules_recovers_witness :
  frames (fresh_improver [consumption]) !! 0%nat = Some consumption
  /\ frames (fresh_improver [consumption; consumption]) !! 1%nat = Some consumption
  /\ df_eval consumption (rule_condition broken_rule)
     = Raise (OtherError "name 'Region' is not defined")
  /\ (apply_business_rules 0 [broken_rule; cap_rule] (fresh_improver [consumption])).1
     = Ok 1%nat
  /\ map log_action
       (improvement_log
          (apply_business_rules 0 [broken_rule; cap_rule] (fresh_improver [consumption])).2)
     = ["business_rule_error"; "business_rule"]
  /\ result_series
       (apply_business_rules 0 [broken_rule; cap_rule] (fresh_improver [consumption]))
       "NB_KW_Jour"
     = [VInt 12; VInt 50].
Proof.
  assert (H1 : frames (fresh_improver [consumption]) !! 0%nat = Some consumption)
    by reflexivity.
  assert (H2 : frames (fresh_improver [consumption; consumption]) !! 1%nat
               = Some consumption) by reflexivity.
  assert (H3 : df_eval consumption (rule_condition broken_rule)
               = Raise (OtherError "name 'Region' is not defined")) by reflexivity.
  repeat (split; [assumption |]).
  pose proof (apply_business_rules_recovers (fresh_improver [consumption]) 0 consumption
                [] [cap_rule] broken_rule consumption
                (OtherError "name 'Region' is not defined") H1 H2 H3) as E.
  cbn [app] in E. rewrite E.
  repeat split; vm_compute; reflexivity.
Defined.

(** C10 at a concrete input. *)
Lemma unknown_strategy_logs_without_filling_witness :
  frames (fresh_improver [scenario_A]) !! 0%nat = Some scenario_A
  /\ NoDup [("CSP", VStr "median")].*1
  /\ ("CSP", VStr "median") ∈ [("CSP", VStr "median")]
  /\ "CSP" ∈ df_columns scenario_A
  /\ (0 < count_null (series scenario_A "CSP"))%nat
  /\ known_strategy (VStr "median") = false
  /\ (exists d',
        frames (improve_completeness 0 [("CSP", VStr "median")]
                  (fresh_improver [scenario_A])).2 !! 1%nat = Some d'
        /\ series d' "CSP" = series scenario_A "CSP")
  /\ forall df_improved,
       (improve_completeness 0 [("CSP", VStr "median")] (fresh_improver [scenario_A])).1
       = Ok df_improved ->
       df_improved = 1%nat
       /\ exists t new,
            improvement_log
              (improve_completeness 0 [("CSP", VStr "median")]
                 (fresh_improver [scenario_A])).2
            = [] ++ new
            /\ {| log_action := "completeness";
                  log_details :=
                    "Colonne CSP: 1 valeurs manquantes comblées avec stratégie 'median'";
                  log_timestamp := t |} ∈ new.
Proof.
  assert (H1 : frames (fresh_improver [scenario_A]) !! 0%nat = Some scenario_A)
    by reflexivity.
  assert (H2 : NoDup [("CSP", VStr "median")].*1) by apply NoDup_singleton.
  assert (H3 : ("CSP", VStr "median") ∈ [("CSP", VStr "median")]) by left.
  assert (H4 : "CSP" ∈ df_columns scenario_A) by left.
  assert (H5 : (0 < count_null (series scenario_A "CSP"))%nat) by (vm_compute; lia).
  assert (H6 : known_strategy (VStr "median") = false) by reflexivity.
  repeat (split; [assumption |]).
  exact (unknown_strategy_logs_without_filling (fresh_improver [scenario_A]) 0 scenario_A
           [("CSP", VStr "median")] "CSP" (VStr "median") H1 H2 H3 H4 H5 H6).
Defined.

(** C7 at a concrete input. *)
Lemma remove_duplicates_first_occurrence_witness :
  frames (fresh_improver [scenario_B]) !! 0%nat = Some scenario_B
  /\ has_columns_or_no_rows scenario_B
  /\ valid_subset scenario_B None
  /\ exists d' st' mask,
       remove_duplicates 0 None KeepFirst (fresh_improver [scenario_B]) = (Ok 1%nat, st')
       /\ frames st' !! 1%nat = Some d'
       /\ df_columns d' = df_columns scenario_B
       /\ length mask = len scenario_B
       /\ df_rows d' = drop_marked mask (df_rows scenario_B)
       /\ (forall i r, df_rows scenario_B !! i = Some r ->
             mask !! i = Some true
             <-> exists j r', (j < i)%nat /\ df_rows scenario_B !! j = Some r'
                              /\ same_on_key scenario_B None r' r)
       /\ sublist (df_rows d') (df_rows scenario_B)
       /\ no_two_match scenario_B None (df_rows d')
       /\ (no_two_match scenario_B None (df_rows scenario_B) -> d' = scenario_B)
       /\ exists st'',
            remove_duplicates 1 None KeepFirst st' = (Ok 2%nat, st'')
            /\ frames st'' !! 2%nat = Some d'.
Proof.
  assert (H1 : frames (fresh_improver [scenario_B]) !! 0%nat = Some scenario_B)
    by reflexivity.
  assert (H2 : has_columns_or_no_rows scenario_B) by (left; discriminate).
  assert (H3 : valid_subset scenario_B None) by exact I.
  repeat (split; [assumption |]).
  exact (remove_duplicates_first_occurrence (fresh_improver [scenario_B]) 0 scenario_B
           None H1 H2 H3).
Defined.

(** C4 at a concrete input. *)
Lemma normalize_codification_replaces_witness :
  frames (fresh_improver [scenario_A]) !! 0%nat = Some scenario_A
  /\ NoDup [("CSP", csp_mapping)].*1
  /\ ("CSP", csp_mapping) ∈ [("CSP", csp_mapping)]
  /\ "CSP" ∈ df_columns scenario_A
  /\ exists d' st',
       normalize_codification 0 [("CSP", csp_mapping)] (fresh_improver [scenario_A])
       = (Ok 1%nat, st')
       /\ frames st' !! 1%nat = Some d'
       /\ length (series d' "CSP") = length (series scenario_A "CSP")
       /\ forall i v, series scenario_A "CSP" !! i = Some v ->
            (forall new, csp_mapping !! py_str v = Some new ->
               series d' "CSP" !! i = Some (VStr new))
            /\ (csp_mapping !! py_str v = None ->
                series d' "CSP" !! i = Some (VStr (py_str v))).
Proof.
  assert (H1 : frames (fresh_improver [scenario_A]) !! 0%nat = Some scenario_A)
    by reflexivity.
  assert (H2 : NoDup [("CSP", csp_mapping)].*1) by apply NoDup_singleton.
  assert (H3 : ("CSP", csp_mapping) ∈ [("CSP", csp_mapping)]) by left.
  assert (H4 : "CSP" ∈ df_columns scenario_A) by left.
  repeat (split; [assumption |]).
  exact (normalize_codification_replaces (fresh_improver [scenario_A]) 0 scenario_A
           [("CSP", csp_mapping)] "CSP" csp_mapping H1 H2 H3 H4).
Defined.

(** C5 at a concrete input. *)
Lemma standardize_format_converts_witness :
  frames (fresh_improver [names]) !! 0%nat = Some names
  /\ NoDup [("Nom", RuleStr "title_case")].*1
  /\ ("Nom", RuleStr "title_case") ∈ [("Nom", RuleStr "title_case")]
  /\ "Nom" ∈ df_columns names
  /\ standardize_format 0 [("Nom", RuleStr "title_case")] (fresh_improver [names])
     = (Ok 1%nat,
        (standardize_format 0 [("Nom", RuleStr "title_case")] (fresh_improver [names])).2)
  /\ exists d',
       frames (standardize_format 0 [("Nom", RuleStr "title_case")]
                 (fresh_improver [names])).2 !! 1%nat = Some d'
       /\ (forall f, text_rule (RuleStr "title_case") = Some f ->
             forall i v, series names "Nom" !! i = Some v ->
               series d' "Nom" !! i = Some (VStr (f (py_str v))))
       /\ (RuleStr "title_case" = RuleStr "numeric" ->
             forall i v, series names "Nom" !! i = Some v ->
               exists v',
                 series d' "Nom" !! i = Some v'
                 /\ (isnull v = true -> isnull v' = true)
                 /\ (forall t, v = VStr t -> isnan (float_of (parse_number t)) = true ->
                       isnull v' = true)).
Proof.
  assert (H1 : frames (fresh_improver [names]) !! 0%nat = Some names) by reflexivity.
  assert (H2 : NoDup [("Nom", RuleStr "title_case")].*1) by apply NoDup_singleton.
  assert (H3 : ("Nom", RuleStr "title_case") ∈ [("Nom", RuleStr "title_case")]) by left.
  assert (H4 : "Nom" ∈ df_columns names) by left.
  assert (H5 : standardize_format 0 [("Nom", RuleStr "title_case")] (fresh_improver [names])
               = (Ok 1%nat,
                  (standardize_format 0 [("Nom", RuleStr "title_case")]
                     (fresh_improver [names])).2)) by reflexivity.
  repeat (split; [assumption |]).
  exact (standardize_format_converts (fresh_improver [names]) _ 0 1 names
           [("Nom", RuleStr "title_case")] "Nom" (RuleStr "title_case") H1 H2 H3 H4 H5).
Defined.

(** ** Scores of a dataset that has rows *)

Lemma round_half_even_bounds (q : Q) (N : Z) :
  (0 <= q)%Q -> (q <= inject_Z N)%Q -> (0 <= round_half_even q <= N)%Z.
Proof.
  intros H0 HN.
  assert (Hf0 : (0 <= Qfloor q)%Z).
  { rewrite <- (Qfloor_Z 0). now apply Qfloor_resp_le. }
  assert (HfN : (Qfloor q <= N)%Z).
  { rewrite <- (Qfloor_Z N). now apply Qfloor_resp_le. }
  assert (Hstep : (1 # 2 <= q - inject_Z (Qfloor q))%Q -> (Qfloor q < N)%Z).
  { intros Hhalf. rewrite Zlt_Qlt. lra. }
  unfold round_half_even.
  destruct (Qcompare_spec (q - inject_Z (Qfloor q)) (1 # 2)) as [E | Hlt | Hgt].
  - assert (Qfloor q < N)%Z by (apply Hstep; rewrite E; apply Qle_refl).
    destruct (Z.even (Qfloor q)); lia.
  - lia.
  - assert (Qfloor q < N)%Z by (apply Hstep; now apply Qlt_le_weak).
    lia.
Qed.

Lemma round2_in_range (a : npfloat) : in_0_100 a -> in_0_100 (round2 a).
Proof.
  destruct a as [q| | |]; simpl; try tauto. intros [H0 H100].
  destruct (round_half_even_bounds (q * 100) 10000) as [Hr0 Hr1].
  - lra.
  - change (inject_Z 10000) with 10000%Q. lra.
  - rewrite Zle_Qle in Hr0, Hr1.
    change (inject_Z 0) with 0%Q in Hr0. change (inject_Z 10000) with 10000%Q in Hr1.
    split.
    + apply Qle_shift_div_l; lra.
    + apply Qle_shift_div_r; lra.
Qed.

Lemma percentage_in_range (count : Z) (total : nat) :
  (0 <= count <= Z.of_nat total)%Z -> (0 < total)%nat ->
  in_0_100 (percentage count total).
Proof.
  intros [Hc0 Hc1] Htotal. unfold percentage. apply round2_in_range.
  unfold div, mul, of_nat, of_Z.
  assert (Hpos : (0 < inject_Z (Z.of_nat total))%Q).
  { change 0%Q with (inject_Z 0). rewrite <- Zlt_Qlt. lia. }
  destruct (Qeq_bool (inject_Z (Z.of_nat total)) 0) eqn:E.
  { apply Qeq_bool_iff in E. rewrite E in Hpos. now apply Qlt_irrefl in Hpos. }
  rewrite Zle_Qle in Hc0, Hc1. change (inject_Z 0) with 0%Q in Hc0.
  generalize dependent (inject_Z (Z.of_nat total)). intros t Hc1 Hpos _.
  generalize dependent (inject_Z count). intros c Hc0 Hc1.
  assert (H0 : (0 <= c / t)%Q) by (apply Qle_shift_div_l; lra).
  assert (H1 : (c / t <= 1)%Q) by (apply Qle_shift_div_r; lra).
  simpl. split; lra.
Qed.

Lemma complement_in_range (a : npfloat) : in_0_100 a -> in_0_100 (sub (Fin 100) a).
Proof. destruct a as [q| | |]; simpl; try tauto. intros [H0 H1]. split; lra. Qed.

Lemma sum_in_range (l : list npfloat) (acc : Q) :
  Forall in_0_100 l ->
  exists q, foldl add (Fin acc) l = Fin q
            /\ (acc <= q)%Q /\ (q <= acc + 100 * inject_Z (Z.of_nat (length l)))%Q.
Proof.
  intros Hl. revert acc. induction Hl as [|a l Ha Hl IH]; intros acc.
  - exists acc. simpl. split; [reflexivity |].
    change (inject_Z (Z.of_nat 0)) with 0%Q. split; lra.
  - destruct a as [x| | |]; simpl in Ha; try tauto.
    cbn [foldl add]. destruct (IH (acc + x)%Q) as (q & -> & Hq0 & Hq1).
    exists q. split; [reflexivity |].
    rewrite length_cons, Nat2Z.inj_succ, <- Z.add_1_r, inject_Z_plus.
    change (inject_Z 1) with 1%Q. split; lra.
Qed.

Lemma mean_or_zero_in_range (scores : list npfloat) :
  Forall in_0_100 scores -> in_0_100 (mean_or_zero scores).
Proof.
  intros Hl. destruct scores as [|a l]; [simpl; split; lra |].
  unfold mean_or_zero, mean, Float.sum.
  destruct (sum_in_range (a :: l) 0 Hl) as (q & -> & Hq0 & Hq1).
  unfold div, of_nat, of_Z.
  assert (Hpos : (0 < inject_Z (Z.of_nat (length (a :: l))))%Q).
  { change 0%Q with (inject_Z 0). rewrite <- Zlt_Qlt. simpl. lia. }
  generalize dependent (inject_Z (Z.of_nat (length (a :: l)))). intros n Hq1 Hpos.
  destruct (Qeq_bool n 0) eqn:E.
  { apply Qeq_bool_iff in E. rewrite E in Hpos. now apply Qlt_irrefl in Hpos. }
  simpl. split.
  - apply Qle_shift_div_l; lra.
  - apply Qle_shift_div_r; lra.
Qed.

Lemma weighted_in_range (a b c d : npfloat) :
  in_0_100 a -> in_0_100 b -> in_0_100 c -> in_0_100 d ->
  in_0_100 (add (add (add (mul a (Fin (3 # 10))) (mul b (Fin (25 # 100))))
                     (mul c (Fin (25 # 100))))
                (mul d (Fin (20 # 100)))).
Proof.
  destruct a, b, c, d; simpl; try tauto. intros [] [] [] []. split; lra.
Qed.

Lemma completeness_of_in_range (df : DataFrame) (col : string) :
  (0 < len df)%nat -> in_0_100 (c_completeness_score (completeness_of df col)).
Proof.
  intros Hlen. unfold completeness_of. cbn [c_completeness_score].
  apply complement_in_range, percentage_in_range; [| assumption].
  unfold count_null. pose proof (filter_length_le isnull (series df col)) as Hle.
  rewrite length_series in Hle. lia.
Qed.

Lemma count_true_bounds (mask : list bool) :
  (0 <= count_true mask <= Z.of_nat (length mask))%Z.
Proof.
  unfold count_true. pose proof (filter_length_le id mask). lia.
Qed.

Lemma check_format_consistency_in_range `{Runtime} (df : DataFrame) (column : string)
  (r : format_report) :
  check_format_consistency df column = Report r ->
  in_0_100 (format_consistency_score r).
Proof.
  unfold check_format_consistency.
  destruct (negb _); [discriminate |].
  destruct (Nat.eqb_spec (length (dropna (series df column))) 0) as [_ | Hne];
    [discriminate |].
  intros [= <-]. cbn [format_consistency_score].
  apply percentage_in_range; [| lia].
  unfold count_numeric.
  pose proof (filter_length_le numeric_convertible_value (dropna (series df column))).
  lia.
Qed.

Lemma check_codification_consistency_in_range `{Runtime} (df : DataFrame)
  (column : string) (valid_codes : option (list value)) (r : codification_report) :
  check_codification_consistency df column valid_codes = Report r ->
  in_0_100 (k_codification_score r).
Proof.
  unfold check_codification_consistency.
  destruct (negb _); [discriminate |].
  destruct (Nat.eqb_spec (length (dropna (series df column))) 0) as [_ | Hne];
    [discriminate |].
  set (s := dropna (series df column)) in *.
  assert (Hvalid : forall codes, in_0_100
            (percentage (Z.of_nat (length (List.filter (is_valid_code codes) s)))
               (length s))).
  { intros codes. apply percentage_in_range; [| lia].
    pose proof (filter_length_le (is_valid_code codes) s). lia. }
  assert (Hnum : in_0_100 (percentage (count_numeric s) (length s))).
  { apply percentage_in_range; [| lia]. unfold count_numeric.
    pose proof (filter_length_le numeric_convertible_value s). lia. }
  destruct valid_codes as [[|c codes]|]; intros [= <-]; cbn [k_codification_score];
    auto.
Qed.

Lemma score_or_zero_in_range {A : Type} (score : A -> npfloat) (r : check_result A) :
  (forall x, r = Report x -> in_0_100 (score x)) -> in_0_100 (score_or_zero score r).
Proof.
  intros Hr. destruct r as [msg|x]; simpl; [split; lra | now apply Hr].
Qed.

Lemma calculate_data_quality_score_in_range c d f k :
  Forall (fun e => in_0_100 (c_completeness_score e.2)) c ->
  in_0_100 (d_uniqueness_score d) ->
  Forall (fun e => forall x, e.2 = Report x -> in_0_100 (format_consistency_score x)) f ->
  Forall (fun e => forall x, e.2 = Report x -> in_0_100 (k_codification_score x)) k ->
  let q := calculate_data_quality_score c d f k in
  in_0_100 (completeness_score q) /\ in_0_100 (uniqueness_score q)
  /\ in_0_100 (format_score q) /\ in_0_100 (codification_score q)
  /\ in_0_100 (overall_quality_score q).
Proof.
  intros Hc Hd Hf Hk.
  assert (Hc' : in_0_100 (mean_or_zero (map (fun r => c_completeness_score r.2) c))).
  { apply mean_or_zero_in_range. now apply Forall_map. }
  assert (Hf' : in_0_100 (mean_or_zero
            (map (fun r => score_or_zero format_consistency_score r.2) f))).
  { apply mean_or_zero_in_range, Forall_map.
    eapply Forall_impl; [exact Hf |]. intros e He. now apply score_or_zero_in_range. }
  assert (Hk' : in_0_100 (mean_or_zero
            (map (fun r => score_or_zero k_codification_score r.2) k))).
  { apply mean_or_zero_in_range, Forall_map.
    eapply Forall_impl; [exact Hk |]. intros e He. now apply score_or_zero_in_range. }
  unfold calculate_data_quality_score. cbn.
  repeat split; apply round2_in_range; auto using weighted_in_range.
Qed.

(** C1 holds on a dataset that has at least one row: every score of its
    report is a number of [0, 100]. *)
Theorem scores_in_range_with_rows `{Runtime} (df : DataFrame) (name now : string) :
  (0 < len df)%nat ->
  exists r,
    generate_quality_report df name now = Ok r
    /\ Forall (fun e => in_0_100 (c_completeness_score e.2)) (completeness r)
    /\ in_0_100 (d_uniqueness_score (duplicates r))
    /\ Forall (fun e => forall x, e.2 = Report x -> in_0_100 (format_consistency_score x))
         (format_consistency r)
    /\ Forall (fun e => forall x, e.2 = Report x -> in_0_100 (k_codification_score x))
         (codification_consistency r)
    /\ in_0_100 (completeness_score (r_quality_score r))
    /\ in_0_100 (uniqueness_score (r_quality_score r))
    /\ in_0_100 (format_score (r_quality_score r))
    /\ in_0_100 (codification_score (r_quality_score r))
    /\ in_0_100 (overall_quality_score (r_quality_score r)).
Proof.
  intros Hlen.
  destruct (generate_quality_report_ok df name now) as (c & d & Hc & Hd & ->).
  eexists. split; [reflexivity |]. cbn.
  rewrite check_completeness_all in Hc. injection Hc as <-.
  destruct (check_duplicates_all df) as (mask & _ & Hmask & Hd').
  rewrite Hd' in Hd. injection Hd as <-.
  assert (H1 : Forall (fun e => in_0_100 (c_completeness_score e.2))
                 (map (fun col => (col, completeness_of df col)) (df_columns df))).
  { apply Forall_map, Forall_forall. intros col _. now apply completeness_of_in_range. }
  assert (H2 : in_0_100 (percentage (Z.of_nat (len df) - count_true mask) (len df))).
  { apply percentage_in_range; [| assumption].
    pose proof (count_true_bounds mask). lia. }
  assert (H3 : Forall
            (fun e => forall x, e.2 = Report x -> in_0_100 (format_consistency_score x))
            (map (fun col => (col, check_format_consistency df col))
                 (List.filter (format_checked df) (df_columns df)))).
  { apply Forall_map, Forall_forall. intros col _ x Hx.
    now apply (check_format_consistency_in_range df col). }
  assert (H4 : Forall
            (fun e => forall x, e.2 = Report x -> in_0_100 (k_codification_score x))
            (if has_column df "CSP" then
               [("CSP", check_codification_consistency df "CSP" (Some valid_csp))]
             else [])).
  { destruct (has_column df "CSP"); constructor; [| constructor].
    intros x Hx.
    now apply (check_codification_consistency_in_range df "CSP" (Some valid_csp) x). }
  repeat (split; [assumption |]).
  now apply calculate_data_quality_score_in_range.
Qed.

(** * Further properties *)

(** ** Counts of the evaluator *)

(** X1: when every requested column is a column of the dataset and none is
    requested twice (as it is when none is requested),
    [check_completeness] reports the requested columns in order, and for
    each of them the missing and the complete values add up to the number of
    rows. *)
Theorem check_completeness_counts (df : DataFrame) (columns : option (list string)) :
  (forall c, c ∈ default (df_columns df) columns -> c ∈ df_columns df) ->
  (forall l, columns = Some l -> NoDup l) ->
  exists report,
    check_completeness df columns = Ok report
    /\ map fst report = default (df_columns df) columns
    /\ Forall (fun e =>
                 (0 <= missing_count e.2 <= Z.of_nat (len df))%Z
                 /\ (missing_count e.2 + complete_count e.2 = Z.of_nat (len df))%Z)
         report.
Proof.
  intros Hcols Hnd. unfold check_completeness.
  rewrite filter_missing_nil by assumption.
  exists (map (fun col => (col, completeness_of df col)) (default (df_columns df) columns)).
  split; [| split].
  - destruct columns as [l|]; [| reflexivity].
    simpl. now rewrite bool_decide_eq_true_2 by now apply Hnd.
  - rewrite map_map. simpl. apply map_id.
  - apply Forall_map, Forall_forall. intros col _. simpl.
    unfold count_null. pose proof (filter_length_le isnull (series df col)) as Hle.
    rewrite length_series in Hle. lia.
Qed.

(** X1 at a concrete input. *)
Lemma check_completeness_counts_witness :
  (forall c, c ∈ default (df_columns scenario_A) (Some ["CSP"]) -> c ∈ df_columns scenario_A)
  /\ (forall l, Some ["CSP"] = Some l -> NoDup l)
  /\ exists report,
       check_completeness scenario_A (Some ["CSP"]) = Ok report
       /\ map fst report = ["CSP"]
       /\ Forall (fun e =>
                    (0 <= missing_count e.2 <= Z.of_nat (len scenario_A))%Z
                    /\ (missing_count e.2 + complete_count e.2
                        = Z.of_nat (len scenario_A))%Z)
            report.
Proof.
  assert (H1 : forall c, c ∈ default (df_columns scenario_A) (Some ["CSP"]) ->
                 c ∈ df_columns scenario_A) by (intros c Hc; exact Hc).
  assert (H2 : forall l, Some ["CSP"] = Some l -> NoDup l).
  { intros l [= <-]. apply NoDup_singleton. }
  repeat (split; [assumption |]).
  exact (check_completeness_counts scenario_A (Some ["CSP"]) H1 H2).
Defined.

Lemma filter_missing_first (df : DataFrame) (l : list string) (c : string) :
  c ∈ l -> c ∉ df_columns df ->
  exists c' rest,
    List.filter (fun c => negb (has_column df c)) l = c' :: rest
    /\ c' ∈ l /\ (c' ∉ df_columns df).
Proof.
  intros Hin Hc.
  assert (Hf : c ∈ List.filter (fun c => negb (has_column df c)) l).
  { apply list_elem_of_In, filter_In. split; [now apply list_elem_of_In |].
    unfold has_column. now rewrite bool_decide_eq_false_2. }
  destruct (List.filter _ l) as [|c' rest] eqn:E; [inversion Hf |].
  exists c', rest. split; [reflexivity |].
  assert (Hc' : In c' (List.filter (fun c => negb (has_column df c)) l))
    by (rewrite E; now left).
  apply filter_In in Hc' as [Hl Hneg]. split; [now apply list_elem_of_In |].
  unfold has_column in Hneg. apply negb_true_iff, bool_decide_eq_false in Hneg.
  exact Hneg.
Qed.

(** X2: when a requested column is not a column of the dataset,
    [check_completeness] raises a [KeyError] that names a requested column
    the dataset does not have. *)
Theorem check_completeness_missing_column (df : DataFrame) (columns : list string)
  (c : string) :
  c ∈ columns -> c ∉ df_columns df ->
  exists c',
    check_completeness df (Some columns) = Raise (KeyError c')
    /\ c' ∈ columns /\ (c' ∉ df_columns df).
Proof.
  intros Hin Hc.
  destruct (filter_missing_first df columns c Hin Hc) as (c' & rest & E & Hc').
  exists c'. split; [| exact Hc'].
  unfold check_completeness. simpl. now rewrite E.
Qed.

(** X2 at a concrete input. *)
Lemma check_completeness_missing_column_witness :
  "Nom" ∈ ["CSP"; "Nom"]
  /\ ("Nom" ∉ df_columns scenario_A)
  /\ exists c',
       check_completeness scenario_A (Some ["CSP"; "Nom"]) = Raise (KeyError c')
       /\ c' ∈ ["CSP"; "Nom"] /\ (c' ∉ df_columns scenario_A).
Proof.
  assert (H1 : "Nom" ∈ ["CSP"; "Nom"]) by (right; left).
  assert (H2 : "Nom" ∉ df_columns scenario_A).
  { intros Hin. apply list_elem_of_In in Hin. destruct Hin as [E | []]. discriminate E. }
  repeat (split; [assumption |]).
  exact (check_completeness_missing_column scenario_A ["CSP"; "Nom"] "Nom" H1 H2).
Defined.

Lemma duplicated_valid (df : DataFrame) (subset : option (list string))
  (keep : keep_policy) :
  valid_subset df subset ->
  duplicated df subset keep
  = Ok (if df_empty df then []
        else mark_duplicates keep
               (map (row_key (default (df_columns df) subset)) (df_rows df))).
Proof.
  intros Hsub. unfold duplicated. destruct (df_empty df) eqn:Hempty; [reflexivity |].
  assert (Hcols : df_columns df <> []).
  { unfold df_empty in Hempty. destruct (df_rows df); [discriminate |].
    now destruct (df_columns df). }
  rewrite filter_missing_nil.
  - destruct (default (df_columns df) subset) as [|c cs] eqn:Hkeys; [| reflexivity].
    destruct subset as [l|]; simpl in *; [now destruct Hsub | contradiction].
  - destruct subset as [l|]; simpl in *; [apply Hsub | auto].
Qed.

Lemma count_true_cons (m : bool) (mask : list bool) :
  count_true (m :: mask) = ((if m then 1 else 0) + count_true mask)%Z.
Proof. unfold count_true. destruct m; simpl; lia. Qed.

Lemma length_drop_marked {A : Type} (mask : list bool) (l : list A) :
  length mask = length l ->
  Z.of_nat (length (drop_marked mask l)) = (Z.of_nat (length l) - count_true mask)%Z.
Proof.
  revert l. induction mask as [|m mask IH]; intros [|x l] Hlen; simpl in *;
    try discriminate; [reflexivity |].
  rewrite count_true_cons. specialize (IH l ltac:(lia)).
  destruct m; simpl; lia.
Qed.

Lemma drop_marked_none {A : Type} (mask : list bool) (l : list A) :
  length mask = length l -> count_true mask = 0%Z -> drop_marked mask l = l.
Proof.
  revert l. induction mask as [|m mask IH]; intros [|x l] Hlen Hcount; simpl in *;
    try discriminate; [reflexivity |].
  rewrite count_true_cons in Hcount. pose proof (count_true_bounds mask).
  destruct m; [lia |]. f_equal. apply IH; lia.
Qed.

Lemma mark_seen_distinct (seen ks : list (list key)) :
  NoDup ks -> (forall k, k ∈ ks -> k ∉ seen) -> count_true (mark_seen seen ks) = 0%Z.
Proof.
  revert seen. induction ks as [|k ks IH]; intros seen Hnd Hseen; [reflexivity |].
  simpl. rewrite count_true_cons. apply NoDup_cons in Hnd as (Hk & Hnd).
  rewrite bool_decide_eq_false_2 by (apply Hseen; left).
  rewrite IH; [reflexivity | assumption |].
  intros k' Hk' Hin. apply elem_of_cons in Hin as [-> | Hin]; [contradiction |].
  apply (Hseen k'); [now right | assumption].
Qed.

Lemma first_row_not_marked (k : list key) (ks : list (list key)) :
  (count_true (mark_seen [] (k :: ks)) <= Z.of_nat (length ks))%Z.
Proof.
  simpl. rewrite count_true_cons.
  pose proof (count_true_bounds (mark_seen [k] ks)) as Hb.
  rewrite length_mark_seen in Hb. simpl. lia.
Qed.

(** X3: for every accepted choice of key columns [check_duplicates]
    returns a report in which the duplicates and the unique rows add up to
    the number of rows, and a dataset that has rows has a unique row: its
    first row is never counted as a duplicate. *)
Theorem check_duplicates_counts (df : DataFrame) (subset : option (list string)) :
  valid_subset df subset ->
  exists r,
    check_duplicates df subset = Ok r
    /\ total_rows r = len df
    /\ (0 <= duplicate_count r)%Z
    /\ (duplicate_count r + unique_rows r = Z.of_nat (len df))%Z
    /\ ((0 < len df)%nat -> (1 <= unique_rows r)%Z).
Proof.
  intros Hsub. unfold check_duplicates.
  rewrite !duplicated_valid by assumption.
  eexists. split; [reflexivity |]. cbn [total_rows duplicate_count unique_rows].
  split; [reflexivity |]. split; [apply count_true_bounds |]. split; [lia |].
  intros Hlen. destruct (df_empty df).
  - change (count_true []) with 0%Z. lia.
  - unfold len in *. simpl. destruct (df_rows df) as [|r rows]; [simpl in Hlen; lia |].
    pose proof (first_row_not_marked (row_key (default (df_columns df) subset) r)
                  (map (row_key (default (df_columns df) subset)) rows)) as Hle.
    rewrite length_map in Hle. simpl length. simpl map. lia.
Qed.

(** X3 at a concrete input. *)
Lemma check_duplicates_counts_witness :
  valid_subset scenario_B (Some ["id"])
  /\ exists r,
       check_duplicates scenario_B (Some ["id"]) = Ok r
       /\ total_rows r = len scenario_B
       /\ (0 <= duplicate_count r)%Z
       /\ (duplicate_count r + unique_rows r = Z.of_nat (len scenario_B))%Z
       /\ ((0 < len scenario_B)%nat -> (1 <= unique_rows r)%Z).
Proof.
  assert (H1 : valid_subset scenario_B (Some ["id"])).
  { split; [discriminate |]. intros c Hc.
    apply list_elem_of_In in Hc. destruct Hc as [<- | []]. left. }
  split; [assumption |].
  exact (check_duplicates_counts scenario_B (Some ["id"]) H1).
Defined.

Lemma percentage_all (n : nat) :
  (0 < n)%nat -> feq (percentage (Z.of_nat n) n) (Fin 100).
Proof.
  intros Hn. unfold percentage.
  transitivity (round2 (Fin 100)); [| vm_compute; reflexivity].
  apply round2_proper. unfold div, mul, of_nat, of_Z.
  assert (Hpos : (0 < inject_Z (Z.of_nat n))%Q).
  { change 0%Q with (inject_Z 0). rewrite <- Zlt_Qlt. lia. }
  generalize dependent (inject_Z (Z.of_nat n)). intros q Hpos.
  destruct (Qeq_bool q 0) eqn:E.
  { apply Qeq_bool_iff in E. rewrite E in Hpos. now apply Qlt_irrefl in Hpos. }
  simpl. field. intros E'. rewrite E' in Hpos. now apply Qlt_irrefl in Hpos.
Qed.

(** X4: [remove_duplicates] removes as many rows as [check_duplicates]
    counts duplicates for the same key columns; when that count is zero the
    dataset is returned as it is and nothing is logged, otherwise exactly
    one entry is logged, and it gives the count. *)
Theorem remove_duplicates_removes_duplicate_count `{Runtime} (st : state) (df : ref)
  (d : DataFrame) (subset : option (list string)) :
  frames st !! df = Some d ->
  has_columns_or_no_rows d ->
  valid_subset d subset ->
  exists r d' st',
    check_duplicates d subset = Ok r
    /\ remove_duplicates df subset KeepFirst st = (Ok (length (frames st)), st')
    /\ frames st' !! length (frames st) = Some d'
    /\ Z.of_nat (len d') = unique_rows r
    /\ (duplicate_count r = 0%Z -> d' = d /\ improvement_log st' = improvement_log st)
    /\ ((0 < duplicate_count r)%Z ->
        improvement_log st'
        = improvement_log st ++
            [{| log_action := "duplicates";
                log_details :=
                  pretty (duplicate_count r) +:+ " doublons supprimés (subset=" +:+
                  subset_str subset +:+ ", keep=first)";
                log_timestamp := clock (clock_reads st) |}]).
Proof.
  intros Hdf Hwf Hsub.
  set (keyf := key_under d subset).
  set (mask := mark_seen [] (keyf <$> df_rows d)).
  assert (Hlen : length mask = length (df_rows d))
    by (subst mask; now rewrite length_mark_seen, length_fmap).
  assert (Hcheck : check_duplicates d subset
            = Ok {| total_rows := len d;
                    duplicate_count := count_true mask;
                    duplicate_percentage := percentage (count_true mask) (len d);
                    unique_rows := Z.of_nat (len d) - count_true mask;
                    d_uniqueness_score :=
                      percentage (Z.of_nat (len d) - count_true mask) (len d) |}).
  { unfold check_duplicates. rewrite !duplicated_valid by assumption.
    destruct (df_empty d) eqn:Hempty; [| reflexivity].
    assert (Hrows : df_rows d = []).
    { destruct Hwf as [Hcols | Hrows]; [| assumption].
      unfold df_empty in Hempty. destruct (df_rows d); [reflexivity |].
      now destruct (df_columns d). }
    subst mask. now rewrite Hrows. }
  pose proof (drop_duplicates_first d subset Hwf Hsub) as Hdrop.
  fold keyf mask in Hdrop.
  pose proof (length_drop_marked mask (df_rows d) Hlen) as Hkept.
  assert (Hremoved :
            (Z.of_nat (len d)
             - Z.of_nat (len (mkDataFrame (df_columns d) (drop_marked mask (df_rows d)))))%Z
            = count_true mask).
  { unfold len. cbn [df_rows]. lia. }
  eexists _, (mkDataFrame (df_columns d) (drop_marked mask (df_rows d))).
  unfold remove_duplicates, bind, read_frame, lift, new_frame, ret.
  rewrite Hdf, Hdrop, Hremoved. unfold keep_str, log_improvement.
  change (len (mkDataFrame (df_columns d) (drop_marked mask (df_rows d))))
    with (length (drop_marked mask (df_rows d))).
  destruct (Z.ltb_spec 0 (count_true mask)) as [Hpos | Hzero].
  - eexists. split; [exact Hcheck |]. split; [reflexivity |].
    cbn [frames improvement_log duplicate_count unique_rows].
    split; [rewrite lookup_app_r by lia; now rewrite Nat.sub_diag |].
    split; [exact Hkept |]. split; [lia |]. intros _. reflexivity.
  - eexists. split; [exact Hcheck |]. split; [reflexivity |].
    cbn [frames improvement_log duplicate_count unique_rows].
    split; [rewrite lookup_app_r by lia; now rewrite Nat.sub_diag |].
    split; [exact Hkept |]. split; [| lia]. intros Hcount. split; [| reflexivity].
    rewrite drop_marked_none by assumption. now destruct d.
Qed.

(** X4 at a concrete input. *)
Lemma remove_duplicates_removes_duplicate_count_witness :
  frames (fresh_improver [scenario_B]) !! 0%nat = Some scenario_B
  /\ has_columns_or_no_rows scenario_B
  /\ valid_subset scenario_B None
  /\ exists r d' st',
       check_duplicates scenario_B None = Ok r
       /\ remove_duplicates 0 None KeepFirst (fresh_improver [scenario_B]) = (Ok 1%nat, st')
       /\ frames st' !! 1%nat = Some d'
       /\ Z.of_nat (len d') = unique_rows r.
Proof.
  assert (H1 : frames (fresh_improver [scenario_B]) !! 0%nat = Some scenario_B)
    by reflexivity.
  assert (H2 : has_columns_or_no_rows scenario_B) by (left; discriminate).
  assert (H3 : valid_subset scenario_B None) by exact I.
  repeat (split; [assumption |]).
  destruct (remove_duplicates_removes_duplicate_count (fresh_improver [scenario_B]) 0
              scenario_B None H1 H2 H3) as (r & d' & st' & Hr & Hrun & Hd' & Hlen & _).
  exists r, d', st'. repeat split; assumption.
Defined.

(** X5: on the dataset [remove_duplicates] returns, [check_duplicates]
    with the same key columns counts no duplicate; its uniqueness score is
    100 when the original dataset has rows, and [nan] when it has none. *)
Theorem no_duplicates_after_removal `{Runtime} (st : state) (df : ref)
  (d : DataFrame) (subset : option (list string)) :
  frames st !! df = Some d ->
  has_columns_or_no_rows d ->
  valid_subset d subset ->
  exists d' st' r',
    remove_duplicates df subset KeepFirst st = (Ok (length (frames st)), st')
    /\ frames st' !! length (frames st) = Some d'
    /\ check_duplicates d' subset = Ok r'
    /\ duplicate_count r' = 0%Z
    /\ unique_rows r' = Z.of_nat (len d')
    /\ ((0 < len d)%nat -> feq (d_uniqueness_score r') (Fin 100))
    /\ (len d = 0%nat -> d_uniqueness_score r' = NaN).
Proof.
  intros Hdf Hwf Hsub.
  set (keyf := key_under d subset).
  set (kept := drop_marked (mark_seen [] (keyf <$> df_rows d)) (df_rows d)).
  pose proof (drop_duplicates_first d subset Hwf Hsub) as Hdrop. fold keyf kept in Hdrop.
  destruct (remove_duplicates_run st df d (mkDataFrame (df_columns d) kept) subset KeepFirst
              Hdf Hdrop) as (st' & Hrun & Hframes).
  exists (mkDataFrame (df_columns d) kept), st'.
  assert (Hsub' : valid_subset (mkDataFrame (df_columns d) kept) subset)
    by (destruct subset; exact Hsub).
  assert (Hnone : count_true
            (if df_empty (mkDataFrame (df_columns d) kept) then []
             else mark_duplicates KeepFirst
                    (map (row_key (default (df_columns d) subset)) kept)) = 0%Z).
  { destruct (df_empty _); [reflexivity |]. simpl.
    apply mark_seen_distinct.
    - rewrite map_fmap. apply (kept_keys_distinct keyf [] (df_rows d)).
    - intros k _ Hin. inversion Hin. }
  eexists. unfold check_duplicates. rewrite !duplicated_valid by assumption.
  cbn [df_columns df_rows].
  split; [exact Hrun |].
  split; [rewrite Hframes, lookup_app_r by lia; now rewrite Nat.sub_diag |].
  split; [reflexivity |].
  cbn [duplicate_count unique_rows d_uniqueness_score]. rewrite Hnone.
  split; [reflexivity |]. split; [lia |].
  rewrite Z.sub_0_r. unfold len. cbn [df_rows]. split.
  - intros Hpos. apply percentage_all.
    destruct (df_rows d) as [|r rows] eqn:Hrows; [simpl in Hpos; lia |].
    pose proof (first_row_kept keyf r rows) as Hne. fold kept in Hne.
    destruct kept; [contradiction | simpl; lia].
  - intros Hzero. subst kept.
    destruct (df_rows d); [reflexivity | discriminate Hzero].
Qed.

(** X5 at a concrete input. *)
Lemma no_duplicates_after_removal_witness :
  frames (fresh_improver [scenario_B]) !! 0%nat = Some scenario_B
  /\ has_columns_or_no_rows scenario_B
  /\ valid_subset scenario_B None
  /\ exists d' st' r',
       remove_duplicates 0 None KeepFirst (fresh_improver [scenario_B]) = (Ok 1%nat, st')
       /\ frames st' !! 1%nat = Some d'
       /\ check_duplicates d' None = Ok r'
       /\ duplicate_count r' = 0%Z.
Proof.
  assert (H1 : frames (fresh_improver [scenario_B]) !! 0%nat = Some scenario_B)
    by reflexivity.
  assert (H2 : has_columns_or_no_rows scenario_B) by (left; discriminate).
  assert (H3 : valid_subset scenario_B None) by exact I.
  repeat (split; [assumption |]).
  destruct (no_duplicates_after_removal (fresh_improver [scenario_B]) 0
              scenario_B None H1 H2 H3) as (d' & st' & r' & Hrun & Hd' & Hr' & Hc & _).
  exists d', st', r'. repeat split; assumption.
Defined.

(** ** The summary of the improvements *)









(** ** Reports on one column *)










(** ** Datasets without codes, and the decision to clean *)







(** ** The decision to clean *)












(** ** Granularity *)





(** ** The five steps in a row *)






(** ** Columns that need nothing *)






(** ** Rules of format given by name *)





